(** * Verification of [scripts/validate_sprites.py]

    A shallow embedding of the sprite-sheet validator of lilypad-leap and
    the properties of its report and exit code.

    The script is embedded as it is written: module-level constants,
    [check] and [main].  What it calls from outside (the [os.path]
    functions, Pillow's decoder, [print], [sys.exit], float arithmetic and
    f-string formatting) is modelled below, each in a module of its own. *)

From Stdlib Require Import List String Ascii DecimalString Bool.
From Stdlib Require Import NArith ZArith QArith Lia.
Import ListNotations.

Local Open Scope string_scope.

(* ================================================================== *)
(** ** Strings: the few [str] methods the script and [posixpath] use   *)
(* ================================================================== *)

Module PyStr.

(** [s.startswith(p)] *)
Definition startswith (s p : string) : bool := String.prefix p s.

(** [c * n] for a one-character string *)
Fixpoint times (c : ascii) (n : nat) : string :=
  match n with
  | O => ""
  | S n' => String c (times c n')
  end.

(** [s.split("/")]: never empty, [''] for the empty string *)
Fixpoint split_slash (s : string) : list string :=
  match s with
  | "" => [""]
  | String c s' =>
      if Ascii.eqb c "/" then "" :: split_slash s'
      else match split_slash s' with
           | [] => [String c ""]
           | hd :: tl => String c hd :: tl
           end
  end.

(** [s[: s.rfind("/") + 1]]: [s] up to and including its last slash *)
Fixpoint through_last_slash (s : string) : string :=
  match s with
  | "" => ""
  | String c s' =>
      let h := through_last_slash s' in
      if String.eqb h "" then (if Ascii.eqb c "/" then "/" else "")
      else String c h
  end.

(** [s.rstrip("/")] *)
Fixpoint rstrip_slash (s : string) : string :=
  match s with
  | "" => ""
  | String c s' =>
      let r := rstrip_slash s' in
      if String.eqb r "" && Ascii.eqb c "/" then "" else String c r
  end.

(** [s.endswith("/")] *)
Fixpoint endswith_slash (s : string) : bool :=
  match s with
  | "" => false
  | String c "" => Ascii.eqb c "/"
  | String _ s' => endswith_slash s'
  end.

(** The character of the decimal digit [d]. *)
Definition digit_char (d : N) : ascii :=
  ascii_of_N (48 + d).

(** The [k] low decimal digits of [n], most significant first. *)
Fixpoint digits_fixed (k : nat) (n : N) : string :=
  match k with
  | O => ""
  | S k' => digits_fixed k' (n / 10) ++ String (digit_char (n mod 10)) ""
  end.

(** [str(n)] for a non-negative [int] *)
Definition str (n : N) : string :=
  NilEmpty.string_of_uint (N.to_uint n).

End PyStr.

(* ================================================================== *)
(** ** [os.path] on POSIX ([posixpath])                                 *)
(* ================================================================== *)

Module PosixPath.
Import PyStr.

(** [os.path.isabs(p)] *)
Definition isabs (p : string) : bool := startswith p "/".

(** [os.path.join(a, b)] *)
Definition join2 (a b : string) : string :=
  if startswith b "/" then b
  else if String.eqb a "" || endswith_slash a then a ++ b
  else a ++ "/" ++ b.

(** [os.path.join(a, *p)] *)
Definition join (a : string) (p : list string) : string :=
  fold_left join2 p a.

(** [os.path.dirname(p)] *)
Definition dirname (p : string) : string :=
  let head := through_last_slash p in
  if negb (String.eqb head "")
     && negb (String.eqb head (times "/" (String.length head)))
  then rstrip_slash head
  else head.

Definition is_nil {A} (l : list A) : bool :=
  match l with [] => true | _ => false end.

(** The number of leading slashes [normpath] keeps: POSIX allows one or
    two, and treats three or more as one. *)
Definition initial_slashes (path : string) : nat :=
  if startswith path "/" then
    if startswith path "//" && negb (startswith path "///") then 2 else 1
  else 0.

(** One turn of the loop of [normpath] over the components. *)
Definition normpath_step (initial : nat) (new_comps : list string)
           (comp : string) : list string :=
  if String.eqb comp "" || String.eqb comp "." then new_comps
  else if negb (String.eqb comp "..")
          || (Nat.eqb initial 0 && is_nil new_comps)
          || (negb (is_nil new_comps)
              && String.eqb (last new_comps "") "..")
  then new_comps ++ [comp]
  else if negb (is_nil new_comps) then removelast new_comps
  else new_comps.

(** [os.path.normpath(path)] *)
Definition normpath (path : string) : string :=
  if String.eqb path "" then "."
  else
    let initial := initial_slashes path in
    let comps := fold_left (normpath_step initial) (split_slash path) [] in
    let path' := times "/" initial ++ String.concat "/" comps in
    if String.eqb path' "" then "." else path'.

(** [os.path.abspath(path)], with the current directory made explicit *)
Definition abspath (cwd path : string) : string :=
  normpath (if isabs path then path else join cwd [path]).

End PosixPath.

(* ================================================================== *)
(** ** Binary64 arithmetic, on exact rationals                          *)
(* ================================================================== *)

(** A finite Python [float] is a rational; an operation is the exact
    operation followed by rounding to the nearest binary64 value, ties to
    even.  Overflow to infinity is outside this model (no operand of the
    script comes near it). *)

Module Float.

(** [n / d] rounded to the nearest integer, ties to even
    ([0 <= n], [0 < d]). *)
Definition round_half_even (n d : Z) : Z :=
  let q := (n / d)%Z in
  let r := (n mod d)%Z in
  match (2 * r ?= d)%Z with
  | Lt => q
  | Gt => (q + 1)%Z
  | Eq => if Z.even q then q else (q + 1)%Z
  end.

(** [floor (log2 (n / d))] for [0 < n], [0 < d]. *)
Definition floor_log2 (n d : Z) : Z :=
  let l := (Z.log2 n - Z.log2 d)%Z in
  if (0 <=? l)%Z
  then (if (d * 2 ^ l <=? n)%Z then l else l - 1)%Z
  else (if (d <=? n * 2 ^ (- l))%Z then l else l - 1)%Z.

(** [m * 2^e] *)
Definition scale2 (m e : Z) : Q :=
  if (0 <=? e)%Z then inject_Z (m * 2 ^ e)
  else Qmake m (Z.to_pos (2 ^ (- e))).

(** Rounding of a non-negative rational [n / d] to binary64: a 53-bit
    significand, the exponent of the last place at least -1074. *)
Definition round_pos (n d : Z) : Q :=
  let e := Z.max (floor_log2 n d - 52) (-1074) in
  let m := if (0 <=? e)%Z then round_half_even n (d * 2 ^ e)
           else round_half_even (n * 2 ^ (- e)) d in
  scale2 m e.

Definition round (x : Q) : Q :=
  let n := Qnum x in
  let d := Zpos (Qden x) in
  match n with
  | Z0 => 0
  | Zpos _ => round_pos n d
  | Zneg _ => - round_pos (- n) d
  end.

(** A float literal of the source text *)
Definition literal (x : Q) : Q := round x.

(** [float * float] *)
Definition mul (x y : Q) : Q := round (x * y).

(** [a / b] on two non-negative [int]s, [b] not zero: Python rounds the
    exact quotient once. *)
Definition truediv (a b : N) : Q :=
  round (Qmake (Z.of_N a) (Z.to_pos (Z.of_N b))).

(** [x < y] *)
Definition ltb (x y : Q) : bool := negb (Qle_bool y x).

End Float.

(* ================================================================== *)
(** ** f-string formatting of a float with the [%] presentation type   *)
(* ================================================================== *)

Module PyFormat.
Import PyStr.

(** [format(x, ".<prec>f")] for [0 <= x]: the exact value of the float
    rounded to [prec] decimals, ties to even. *)
Definition fixed (prec : nat) (x : Q) : string :=
  let scale := (10 ^ Z.of_nat prec)%Z in
  let m := Float.round_half_even (Qnum x * scale) (Zpos (Qden x)) in
  let ip := Z.to_N (m / scale) in
  let fp := Z.to_N (m mod scale) in
  match prec with
  | O => str ip
  | _ => str ip ++ "." ++ digits_fixed prec fp
  end.

(** [format(x, ".<prec>%")]: the float is multiplied by 100 (a float
    multiplication), printed in fixed notation and followed by a percent
    sign. *)
Definition percent (prec : nat) (x : Q) : string :=
  fixed prec (Float.mul x (inject_Z 100)) ++ "%".

End PyFormat.

(* ================================================================== *)
(** ** Pillow images                                                    *)
(* ================================================================== *)

Module PIL.

(** An image in memory: its [size] as [(width, height)] and its pixels
    in row-major order, as [get_flattened_data] returns them. *)
Record image (px : Type) : Type := mk_image {
  size : N * N;
  get_flattened_data : list px
}.
Arguments mk_image {px} _ _.
Arguments size {px} _.
Arguments get_flattened_data {px} _.

(** A pixel of mode RGBA. *)
Record rgba : Type := mk_rgba { red : N; green : N; blue : N; alpha : N }.

(** [img.getchannel("A")] *)
Definition getchannel_A (img : image rgba) : image N :=
  mk_image (size img) (map alpha (get_flattened_data img)).

(** What Pillow guarantees of a decoded image: one pixel per position. *)
Definition well_formed {px} (img : image px) : Prop :=
  N.of_nat (List.length (get_flattened_data img))
  = (fst (size img) * snd (size img))%N.

(** What is found at a path that exists: something
    [Image.open(path).convert("RGBA")] turns into an RGBA image, or
    something it raises on (a directory, a truncated or foreign file). *)
Inductive file : Type :=
| Decodable (img : image rgba)
| Undecodable.

End PIL.

(* ================================================================== *)
(** ** The process: what the script sees and what it does              *)
(* ================================================================== *)

Module Proc.
Import PIL.

(** The surroundings of one run. [fs p = None] when nothing exists at
    path [p]. *)
Record world : Type := mk_world {
  script_file : string;                 (* __file__ *)
  getcwd : string;                      (* os.getcwd() *)
  fs : string -> option file
}.

(** What a run does, in order. *)
Inductive event : Type :=
| EvExists (path : string)              (* os.path.exists(path) *)
| EvOpen (path : string)                (* Image.open(path) *)
| EvPrint (line : string).              (* print(line) *)

Inductive exn : Type :=
| DecodeError (path : string)           (* raised by Image.open/convert *)
| ZeroDivisionError
| SystemExit (code : Z).

(** A computation: the events it performed, then an exception or a
    value. *)
Definition M (A : Type) : Type := (list event * (exn + A))%type.

Definition ret {A} (a : A) : M A := ([], inr a).

Definition raise {A} (e : exn) : M A := ([], inl e).

Definition bind {A B} (m : M A) (k : A -> M B) : M B :=
  match m with
  | (t, inl e) => (t, inl e)
  | (t, inr a) => let (t', r) := k a in ((t ++ t')%list, r)
  end.

Declare Scope py_scope.
Delimit Scope py_scope with py.
Notation "x <- m ;; k" := (bind m (fun x => k))
  (at level 61, m at next level, right associativity) : py_scope.
Notation "m ;; k" := (bind m (fun _ => k))
  (at level 61, right associativity) : py_scope.

Definition trace {A} (m : M A) : list event := fst m.
Definition outcome {A} (m : M A) : exn + A := snd m.

(** [os.path.exists(p)] *)
Definition os_path_exists (W : world) (p : string) : M bool :=
  ([EvExists p], inr (match fs W p with Some _ => true | None => false end)).

(** [Image.open(path).convert("RGBA")] *)
Definition Image_open_RGBA (W : world) (p : string) : M (image rgba) :=
  ([EvOpen p],
   match fs W p with
   | Some (Decodable img) => inr img
   | _ => inl (DecodeError p)
   end).

(** [print(line)] *)
Definition print (line : string) : M unit := ([EvPrint line], inr tt).

(** [sys.exit(code)] *)
Definition sys_exit {A} (code : Z) : M A := raise (SystemExit code).

(** [a / b] on [int]s *)
Definition int_truediv (a b : N) : M Q :=
  if (b =? 0)%N then raise ZeroDivisionError else ret (Float.truediv a b).

(** Standard output: the printed lines, in order. *)
Fixpoint stdout (t : list event) : list string :=
  match t with
  | [] => []
  | EvPrint l :: t' => l :: stdout t'
  | _ :: t' => stdout t'
  end.

(** Exit status of the interpreter: the code of [sys.exit], 1 after any
    other exception that nothing caught, 0 at the end of the script. *)
Definition exit_status {A} (r : exn + A) : Z :=
  match r with
  | inr _ => 0%Z
  | inl (SystemExit c) => c
  | inl _ => 1%Z
  end.

End Proc.

(* ================================================================== *)
(** ** The script                                                       *)
(* ================================================================== *)

Module ValidateSprites.
Import PyStr PIL Proc.
Local Open Scope py_scope.

(** The six sheets the validator expects, in the order of the report. *)
Definition FILES : list string := [
  "toad_idle_right_v1.png";
  "toad_jump_right_v1.png";
  "toad_land_right_v1.png";
  "toad_cashout_right_v1.png";
  "toad_jackpot_right_v1.png";
  "toad_dead_right_v1.png"
].

(** [os.path.abspath(os.path.join(os.path.dirname(__file__), ".."))] *)
Definition REPO_ROOT (W : world) : string :=
  PosixPath.abspath (getcwd W)
    (PosixPath.join (PosixPath.dirname (script_file W)) [".."]).

(** The directory of the sheets, below the repository root. *)
Definition ROOT (W : world) : string :=
  PosixPath.join (REPO_ROOT W)
    ["public"; "lilypad-leap"; "sprites"; "toad"; "sheets"; "v1"].

(** The geometry every sheet must have. *)
Definition SHEET_W : N := 1024.
Definition SHEET_H : N := 256.
Definition FRAMES : N := 4.
Definition FRAME_W : N := SHEET_W / FRAMES.
Definition FRAME_H : N := SHEET_H.

(** Equality of two [(width, height)] pairs. *)
Definition size_eqb (a b : N * N) : bool :=
  (fst a =? fst b)%N && (snd a =? snd b)%N.

(** [sum(1 for px in data if px == 0)] *)
Definition count_zero (data : list N) : N :=
  fold_left N.add (map (fun _ => 1%N) (filter (fun px => (px =? 0)%N) data)) 0%N.

(** [check(path)]: the verdict on one sheet, as the text of its report
    line. The three tests come in the order of the source, each returning
    as soon as it fails. *)
Definition check (W : world) (path : string) : M string :=
  img <- Image_open_RGBA W path ;;
  let '(w, h) := size img in
  if negb (size_eqb (w, h) (SHEET_W, SHEET_H)) then
    ret ("FAIL wrong size " ++ str w ++ "x" ++ str h
         ++ " (expected " ++ str SHEET_W ++ "x" ++ str SHEET_H ++ ")")
  else if negb (w mod FRAMES =? 0)%N then
    ret ("FAIL width not divisible by " ++ str FRAMES ++ ": "
         ++ str w ++ "x" ++ str h)
  else
    let a := getchannel_A img in
    let alpha0 := count_zero (get_flattened_data a) in
    let total := (w * h)%N in
    pct <- int_truediv alpha0 total ;;
    if Float.ltb pct (Float.literal (1 # 100)) then
      ret ("FAIL no real transparency (alpha0="
           ++ PyFormat.percent 4 pct ++ ")")
    else
      ret ("OK size=" ++ str w ++ "x" ++ str h
           ++ " alpha0=" ++ PyFormat.percent 2 pct
           ++ " frame=" ++ str FRAME_W ++ "x" ++ str FRAME_H).

(** The [for f in FILES] loop of [main], from the value of [ok] at its
    entry to the value at its exit. *)
Fixpoint for_files (W : world) (files : list string) (ok : bool) : M bool :=
  match files with
  | [] => ret ok
  | f :: rest =>
      let p := PosixPath.join (ROOT W) [f] in
      present <- os_path_exists W p ;;
      if negb present then
        print ("MISSING " ++ f) ;;
        let ok := false in
        for_files W rest ok
      else
        res <- check W p ;;
        print (f ++ ": " ++ res) ;;
        let ok := if startswith res "FAIL" then false else ok in
        for_files W rest ok
  end.

(** [main()]: the header, one line per expected file, then [sys.exit]. *)
Definition main (W : world) : M unit :=
  let ok := true in
  print ("Repo root: " ++ REPO_ROOT W) ;;
  print ("Sprite root: " ++ ROOT W) ;;
  print (times "-" 70) ;;
  ok <- for_files W FILES ok ;;
  sys_exit (if ok then 0 else 1)%Z.

(** What [python validate_sprites.py] leaves behind: the report on
    standard output and the exit status. *)
Definition report (W : world) : list string := stdout (trace (main W)).
Definition exit_code (W : world) : Z := exit_status (outcome (main W)).

End ValidateSprites.

(* ================================================================== *)
(** ** Notions the properties are stated with                           *)
(* ================================================================== *)

Module Notions.
Import PyStr PIL Proc ValidateSprites.

(** The pixels of an image whose alpha is exactly 0, counted the plain
    way. *)
Definition transparent_pixels (img : image rgba) : N :=
  N.of_nat (List.length
              (filter (fun px => (alpha px =? 0)%N) (get_flattened_data img))).

(** The share of fully transparent pixels, as an exact ratio. *)
Definition transparent_share (img : image rgba) : Q :=
  Qmake (Z.of_N (transparent_pixels img))
        (Z.to_pos (Z.of_N (fst (size img) * snd (size img)))).

(** The three shapes a result of [check] can have. *)
Inductive result_shape (res : string) : Prop :=
| shape_wrong_size (s : string) : res = "FAIL wrong size " ++ s -> result_shape res
| shape_no_transparency (s : string) :
    res = "FAIL no real transparency (alpha0=" ++ s -> result_shape res
| shape_ok (s : string) : res = "OK size=" ++ s -> result_shape res.

(** Where [main] looks for the sheet named [f]. *)
Definition sprite_path (W : world) (f : string) : string :=
  PosixPath.join (ROOT W) [f].

(** The sheet [f] is absent. *)
Definition missing (W : world) (f : string) : Prop :=
  fs W (sprite_path W f) = None.

(** The sheet [f] exists and [check] returns an OK result for it. *)
Definition passes (W : world) (f : string) : Prop :=
  fs W (sprite_path W f) <> None
  /\ exists res, outcome (check W (sprite_path W f)) = inr res
                 /\ startswith res "OK" = true.

(** The sheet [f] exists and [check] returns a FAIL result for it. *)
Definition fails (W : world) (f : string) : Prop :=
  fs W (sprite_path W f) <> None
  /\ exists res, outcome (check W (sprite_path W f)) = inr res
                 /\ startswith res "FAIL" = true.

(** What one turn of the loop of [main] meets at the path of [f]: nothing,
    an image that [check] judges, or a file on which [check] raises. *)
Variant turn (W : world) (f : string) : Prop :=
| turn_missing : missing W f -> turn W f
| turn_checked (img : image rgba) (res : string) :
    fs W (sprite_path W f) = Some (Decodable img) ->
    check W (sprite_path W f) = ([EvOpen (sprite_path W f)], inr res) ->
    result_shape res -> turn W f
| turn_raises :
    fs W (sprite_path W f) = Some Undecodable ->
    check W (sprite_path W f)
    = ([EvOpen (sprite_path W f)], inl (DecodeError (sprite_path W f))) ->
    turn W f.

(** The three lines [main] prints before the loop. *)
Definition header (W : world) : list event := [
  EvPrint ("Repo root: " ++ REPO_ROOT W);
  EvPrint ("Sprite root: " ++ ROOT W);
  EvPrint "----------------------------------------------------------------------"
].

(** A string without a slash. *)
Fixpoint no_slash (s : string) : bool :=
  match s with
  | "" => true
  | String c s' => negb (Ascii.eqb c "/") && no_slash s'
  end.

(** A string of slashes only. *)
Fixpoint all_slash (s : string) : bool :=
  match s with
  | "" => true
  | String c s' => Ascii.eqb c "/" && all_slash s'
  end.

(** A path component: not empty, without a slash. *)
Definition component (c : string) : bool :=
  negb (String.eqb c "") && no_slash c.

(** A component that names a directory entry: neither "." nor "..". *)
Definition plain (c : string) : bool :=
  component c && negb (String.eqb c ".") && negb (String.eqb c "..").

(** The absolute path made of the components [comps]; "/" for none. *)
Definition abs_path (comps : list string) : string :=
  "/" ++ String.concat "/" comps.

(** The percentage of fully transparent pixels of a sheet of 262144
    pixels, computed exactly and written with [prec] decimals (ties to
    even) and a percent sign. *)
Definition exact_percent (prec : nat) (img : image rgba) : string :=
  PyFormat.fixed prec (Qmake (100 * Z.of_N (transparent_pixels img)) 262144)
  ++ "%".

(** The line of the report about the file [f]: the MISSING line when
    nothing is at its path, else the filename and the result of [check]
    (no line when [check] raises: the run ends there). *)
Definition verdict_line (W : world) (f : string) : string :=
  match fs W (sprite_path W f) with
  | None => "MISSING " ++ f
  | Some _ =>
      match outcome (check W (sprite_path W f)) with
      | inr res => f ++ ": " ++ res
      | inl _ => ""
      end
  end.

(** The text of the three header lines. *)
Definition header_lines (W : world) : list string := [
  "Repo root: " ++ REPO_ROOT W;
  "Sprite root: " ++ ROOT W;
  "----------------------------------------------------------------------"
].

(** The file at the path of [f] exists and cannot be decoded. *)
Definition undecodable (W : world) (f : string) : Prop :=
  fs W (sprite_path W f) = Some Undecodable.


End Notions.


(* ================================================================== *)
(** ** Concrete sheets and repositories                                 *)
(* ================================================================== *)

Module Examples.
Import PIL Proc ValidateSprites.

Definition opaque_px : rgba := mk_rgba 34 139 34 255.
Definition clear_px : rgba := mk_rgba 0 0 0 0.

(** A sheet of [w] x [h] pixels, the first [k] of them fully transparent. *)
Definition sheet (w h k : N) : image rgba :=
  mk_image (w, h)
    (repeat clear_px (N.to_nat k) ++ repeat opaque_px (N.to_nat (w * h - k))).

Definition sprite_dir : string :=
  "/repo/public/lilypad-leap/sprites/toad/sheets/v1".

Fixpoint lookup (files : list (string * file)) (p : string) : option file :=
  match files with
  | [] => None
  | (q, f) :: rest => if String.eqb p q then Some f else lookup rest p
  end.

(** A checkout at [/repo] whose sprite directory holds [files]. *)
Definition repo_with (files : list (string * file)) : world :=
  mk_world "/repo/scripts/validate_sprites.py" "/home/dev"
    (lookup (map (fun nf => (sprite_dir ++ "/" ++ fst nf, snd nf)) files)).

Definition good : file := Decodable (sheet 1024 256 4096).

Definition idle : string := sprite_dir ++ "/toad_idle_right_v1.png".
Definition jump : string := sprite_dir ++ "/toad_jump_right_v1.png".

Definition all_but_idle : list (string * file) := [
  ("toad_jump_right_v1.png", good);
  ("toad_land_right_v1.png", good);
  ("toad_cashout_right_v1.png", good);
  ("toad_jackpot_right_v1.png", good);
  ("toad_dead_right_v1.png", good)
].

(** Six sheets that pass. *)
Definition repo_good : world :=
  repo_with (("toad_idle_right_v1.png", good) :: all_but_idle).

(** The idle sheet one pixel too narrow. *)
Definition repo_narrow : world :=
  repo_with (("toad_idle_right_v1.png", Decodable (sheet 1023 256 4096))
             :: all_but_idle).

(** The idle sheet without any transparent pixel. *)
Definition repo_opaque : world :=
  repo_with (("toad_idle_right_v1.png", Decodable (sheet 1024 256 0))
             :: all_but_idle).

(** The idle sheet with 2622 transparent pixels, the least count that
    passes. *)
Definition repo_threshold : world :=
  repo_with (("toad_idle_right_v1.png", Decodable (sheet 1024 256 2622))
             :: all_but_idle).

(** Six sheets that pass, next to a file the validator does not know,
    the script started from another directory. *)
Definition repo_good_with_notes : world :=
  let W := repo_with (("toad_idle_right_v1.png", good) :: all_but_idle
                      ++ [("NOTES.txt", Undecodable)]) in
  mk_world (script_file W) "/tmp" (fs W).

(** The jump sheet absent. *)
Definition repo_jump_missing : world :=
  repo_with (("toad_idle_right_v1.png", good) :: tl all_but_idle).

(** The idle sheet not an image, the jump sheet absent. *)
Definition repo_idle_broken_jump_missing : world :=
  repo_with (("toad_idle_right_v1.png", Undecodable) :: tl all_but_idle).

(** A sheet of the same size as [sheet w h k] with as many fully
    transparent pixels, in other colours and at the other end. *)
Definition sheet_recoloured (w h k : N) : image rgba :=
  mk_image (w, h)
    (repeat (mk_rgba 200 30 30 255) (N.to_nat (w * h - k))
     ++ repeat (mk_rgba 255 255 255 0) (N.to_nat k)).

(** The repository of [repo_good] with the idle sheet recoloured. *)
Definition repo_recoloured : world :=
  repo_with (("toad_idle_right_v1.png",
              Decodable (sheet_recoloured 1024 256 4096))
             :: all_but_idle).

(** The idle sheet with 2621 transparent pixels, the greatest count that
    fails. *)
Definition repo_below_threshold : world :=
  repo_with (("toad_idle_right_v1.png", Decodable (sheet 1024 256 2621))
             :: all_but_idle).

(** The land sheet not an image, the jump sheet absent. *)
Definition repo_land_broken : world :=
  repo_with [("toad_idle_right_v1.png", good);
             ("toad_land_right_v1.png", Undecodable);
             ("toad_cashout_right_v1.png", good);
             ("toad_jackpot_right_v1.png", good);
             ("toad_dead_right_v1.png", good)].

End Examples.
(* ================================================================== *)
(** ** Equations of the computation monad                               *)
(* ================================================================== *)

Module ProcFacts.
Import Proc.
Local Open Scope py_scope.

Lemma outcome_bind {A B} (m : M A) (k : A -> M B) :
  outcome (bind m k)
  = match outcome m with
    | inl e => inl e
    | inr a => outcome (k a)
    end.
Proof.
  destruct m as [t [e | a]]; simpl; [reflexivity |].
  destruct (k a); reflexivity.
Qed.

Lemma trace_bind {A B} (m : M A) (k : A -> M B) :
  trace (bind m k)
  = (trace m ++ match outcome m with
                | inl _ => []
                | inr a => trace (k a)
                end)%list.
Proof.
  destruct m as [t [e | a]]; simpl.
  - now rewrite app_nil_r.
  - destruct (k a); reflexivity.
Qed.

Lemma bind_ret_l {A B} (a : A) (k : A -> M B) : bind (ret a) k = k a.
Proof. unfold bind, ret. now destruct (k a). Qed.

Lemma bind_assoc {A B C} (m : M A) (f : A -> M B) (g : B -> M C) :
  bind (bind m f) g = bind m (fun a => bind (f a) g).
Proof.
  destruct m as [t [e | a]]; simpl; [reflexivity |].
  destruct (f a) as [t1 [e1 | b]]; simpl; [reflexivity |].
  destruct (g b) as [t2 r]. now rewrite app_assoc.
Qed.

Lemma run_eq {A} (m1 m2 : M A) :
  trace m1 = trace m2 -> outcome m1 = outcome m2 -> m1 = m2.
Proof. destruct m1, m2; simpl; congruence. Qed.

Lemma stdout_app (t1 t2 : list event) :
  stdout (t1 ++ t2) = (stdout t1 ++ stdout t2)%list.
Proof.
  induction t1 as [| [p | p | l] t1 IH]; simpl; congruence.
Qed.

Lemma in_stdout (l : string) (t : list event) :
  In l (stdout t) <-> In (EvPrint l) t.
Proof.
  induction t as [| [p | p | l'] t IH]; simpl.
  - tauto.
  - rewrite IH. split; [tauto | intros [H | H]; [discriminate | exact H]].
  - rewrite IH. split; [tauto | intros [H | H]; [discriminate | exact H]].
  - rewrite IH. split; intros [H | H]; auto; left; congruence.
Qed.

End ProcFacts.

Create Rewrite HintDb py_run.
#[global] Hint Rewrite @ProcFacts.outcome_bind @ProcFacts.trace_bind : py_run.

(* ================================================================== *)
(** ** Binary64: the quotients of the script are exact                  *)
(* ================================================================== *)

Module FloatFacts.
Import Float.
Local Open Scope Z_scope.

Lemma round_half_even_exact (a d : Z) :
  0 < d -> round_half_even (a * d) d = a.
Proof.
  intros Hd. unfold round_half_even.
  rewrite Z.div_mul by lia. rewrite Z.mod_mul by lia.
  assert (E : (2 * 0 ?= d) = Lt) by (apply Z.compare_lt_iff; lia).
  now rewrite E.
Qed.

Lemma floor_log2_dyadic (n j : Z) :
  0 < n -> 0 <= j -> floor_log2 n (2 ^ j) = Z.log2 n - j.
Proof.
  intros Hn Hj. unfold floor_log2.
  rewrite Z.log2_pow2 by lia.
  pose proof (Z.log2_spec n Hn) as [Hlo _].
  pose proof (Z.log2_nonneg n) as HL.
  destruct (0 <=? Z.log2 n - j) eqn:E.
  - apply Z.leb_le in E.
    rewrite <- Z.pow_add_r by lia.
    replace (j + (Z.log2 n - j)) with (Z.log2 n) by lia.
    apply Z.leb_le in Hlo. now rewrite Hlo.
  - apply Z.leb_gt in E.
    assert (H : 2 ^ j <= n * 2 ^ (- (Z.log2 n - j))).
    { replace j with (Z.log2 n + (j - Z.log2 n)) at 1 by lia.
      rewrite Z.pow_add_r by lia.
      replace (- (Z.log2 n - j)) with (j - Z.log2 n) by lia.
      apply Z.mul_le_mono_nonneg_r; [apply Z.pow_nonneg; lia | exact Hlo]. }
    apply Z.leb_le in H. now rewrite H.
Qed.

(** A dyadic rational with a numerator of at most 53 bits is a binary64
    value: rounding leaves it as it is. *)
Lemma round_pos_dyadic (n j : Z) :
  0 < n < 2 ^ 53 -> 0 <= j <= 1000 ->
  (round_pos n (2 ^ j) == Qmake n (Z.to_pos (2 ^ j)))%Q.
Proof.
  intros [Hn Hn53] Hj. unfold round_pos.
  rewrite floor_log2_dyadic by lia.
  assert (HL : 0 <= Z.log2 n < 53).
  { split; [apply Z.log2_nonneg |].
    apply Z.log2_lt_pow2; lia. }
  set (L := Z.log2 n) in *.
  rewrite Z.max_l by lia.
  assert (Hpj : 0 < 2 ^ j) by (apply Z.pow_pos_nonneg; lia).
  destruct (0 <=? L - j - 52) eqn:E.
  - apply Z.leb_le in E.
    assert (j = 0) by lia. assert (L = 52) by lia. subst j.
    replace (L - 0 - 52) with 0 by lia.
    change (2 ^ 0) with 1. rewrite Z.mul_1_l.
    replace n with (n * 1) at 1 by lia.
    rewrite round_half_even_exact by lia.
    unfold scale2. simpl. unfold Qeq. simpl. lia.
  - apply Z.leb_gt in E.
    replace (- (L - j - 52)) with ((52 - L) + j) by lia.
    rewrite Z.pow_add_r by lia.
    rewrite Z.mul_assoc.
    rewrite round_half_even_exact by lia.
    unfold scale2.
    assert (E' : (0 <=? L - j - 52) = false) by (apply Z.leb_gt; lia).
    rewrite E'.
    replace (- (L - j - 52)) with ((52 - L) + j) by lia.
    rewrite Z.pow_add_r by lia.
    assert (Hp : 0 < 2 ^ (52 - L)) by (apply Z.pow_pos_nonneg; lia).
    unfold Qeq; cbn [Qnum Qden].
    rewrite !Z2Pos.id by nia.
    ring.
Qed.

(** [k / 2^18] is computed exactly for every count of pixels of a sheet. *)
Lemma truediv_sheet_exact (k : N) :
  (k <= 262144)%N ->
  (truediv k 262144 == Qmake (Z.of_N k) 262144)%Q.
Proof.
  intros Hk. unfold truediv, round.
  change (Qnum (Z.of_N k # Z.to_pos (Z.of_N 262144))) with (Z.of_N k).
  change (Z.pos (Qden (Z.of_N k # Z.to_pos (Z.of_N 262144)))) with (2 ^ 18).
  destruct (Z.of_N k) eqn:Ek.
  - reflexivity.
  - rewrite round_pos_dyadic; [reflexivity | | lia].
    change (2 ^ 53) with 9007199254740992. lia.
  - lia.
Qed.

Lemma literal_0_01 :
  literal (1 # 100) = Qmake 5764607523034235 576460752303423488.
Proof. vm_compute. reflexivity. Qed.

(** The comparison [pct < 0.01] of the script, on a sheet of 262144
    pixels of which [k] are fully transparent: the float literal lies
    strictly between 2621/262144 and 2622/262144, as 1/100 does. *)
Lemma sheet_below_threshold (k : N) :
  (k <= 262144)%N ->
  ltb (truediv k 262144) (literal (1 # 100)) = true
  <-> (Qmake (Z.of_N k) 262144 < 1 # 100)%Q.
Proof.
  intros Hk. unfold ltb.
  rewrite negb_true_iff, <- not_true_iff_false, Qle_bool_iff.
  rewrite (truediv_sheet_exact k Hk), literal_0_01.
  unfold Qle, Qlt. simpl. lia.
Qed.

End FloatFacts.

(* ================================================================== *)
(** ** [check]                                                          *)
(* ================================================================== *)

Module CheckFacts.
Import PyStr PIL Proc ValidateSprites Notions.
Local Open Scope py_scope.

Lemma size_eqb_eq (a b : N * N) : size_eqb a b = true <-> a = b.
Proof.
  destruct a as [a1 a2], b as [b1 b2]. unfold size_eqb. simpl.
  rewrite andb_true_iff, !N.eqb_eq. split.
  - intros [-> ->]. reflexivity.
  - intros H. inversion H. auto.
Qed.

Lemma size_eqb_neq (a b : N * N) : size_eqb a b = false <-> a <> b.
Proof.
  rewrite <- size_eqb_eq. destruct (size_eqb a b); split; congruence.
Qed.

(** The reason the second test of [check] cannot fire: once the size is
    the expected one, the width is a multiple of the frame count. *)
Lemma sheet_width_divisible (w h : N) :
  size_eqb (w, h) (SHEET_W, SHEET_H) = true -> (w mod FRAMES =? 0)%N = true.
Proof.
  intros H. apply size_eqb_eq in H. inversion H. reflexivity.
Qed.

Lemma fold_add_shift (l : list N) (a : N) :
  fold_left N.add l a = (a + fold_left N.add l 0)%N.
Proof.
  revert a. induction l as [| x l IH]; intros a; simpl.
  - lia.
  - rewrite IH, (IH x). lia.
Qed.

Lemma count_zero_length (data : list N) :
  count_zero data
  = N.of_nat (List.length (filter (fun px => (px =? 0)%N) data)).
Proof.
  unfold count_zero.
  induction (filter (fun px => (px =? 0)%N) data) as [| x l IH].
  - reflexivity.
  - cbn [map fold_left List.length]. rewrite fold_add_shift, IH. lia.
Qed.

Lemma filter_map_alpha (l : list rgba) :
  List.length (filter (fun px => (px =? 0)%N) (map alpha l))
  = List.length (filter (fun px => (alpha px =? 0)%N) l).
Proof.
  induction l as [| p l IH]; simpl; [reflexivity |].
  destruct (alpha p =? 0)%N; simpl; congruence.
Qed.

Lemma count_zero_alpha (img : image rgba) :
  count_zero (get_flattened_data (getchannel_A img)) = transparent_pixels img.
Proof.
  unfold transparent_pixels, getchannel_A. cbn [get_flattened_data].
  now rewrite count_zero_length, filter_map_alpha.
Qed.

Lemma transparent_pixels_le (img : image rgba) :
  (transparent_pixels img
   <= N.of_nat (List.length (get_flattened_data img)))%N.
Proof.
  unfold transparent_pixels.
  pose proof (filter_length_le (fun px => (alpha px =? 0)%N)
                (get_flattened_data img)).
  lia.
Qed.

Lemma str_SHEET_W : str SHEET_W = "1024".  Proof. reflexivity. Qed.
Lemma str_SHEET_H : str SHEET_H = "256".   Proof. reflexivity. Qed.
Lemma str_FRAMES : str FRAMES = "4".       Proof. reflexivity. Qed.
Lemma str_FRAME_W : str FRAME_W = "256".   Proof. reflexivity. Qed.
Lemma str_FRAME_H : str FRAME_H = "256".   Proof. reflexivity. Qed.

Section Decoded.
Variable W : world.
Variable path : string.
Variable img : image rgba.
Hypothesis Hfile : fs W path = Some (Decodable img).

(** A size other than the expected one: the first [return]. *)
Lemma check_of_wrong_size :
  size img <> (SHEET_W, SHEET_H) ->
  check W path
  = ([EvOpen path],
     inr ("FAIL wrong size " ++ str (fst (size img)) ++ "x"
          ++ str (snd (size img)) ++ " (expected 1024x256)")).
Proof.
  intros Hsz. apply size_eqb_neq in Hsz.
  unfold check, Image_open_RGBA, bind. rewrite Hfile.
  destruct (size img) as [w h]. rewrite Hsz.
  rewrite str_SHEET_W, str_SHEET_H. reflexivity.
Qed.

(** The expected size: the result is decided by the comparison of the
    transparent share with the literal [0.01]. *)
Lemma check_of_sheet :
  size img = (SHEET_W, SHEET_H) ->
  let pct := Float.truediv (transparent_pixels img) 262144 in
  check W path
  = ([EvOpen path],
     inr (if Float.ltb pct (Float.literal (1 # 100))
          then "FAIL no real transparency (alpha0="
               ++ PyFormat.percent 4 pct ++ ")"
          else "OK size=1024x256 alpha0=" ++ PyFormat.percent 2 pct
               ++ " frame=256x256")).
Proof.
  intros Hsz pct.
  unfold check, Image_open_RGBA. unfold bind at 1. rewrite Hfile.
  rewrite Hsz.
  replace (size_eqb (SHEET_W, SHEET_H) (SHEET_W, SHEET_H)) with true
    by reflexivity.
  replace (SHEET_W mod FRAMES =? 0)%N with true by reflexivity.
  cbn [negb]. rewrite count_zero_alpha.
  replace (int_truediv (transparent_pixels img) (SHEET_W * SHEET_H))
    with (ret pct) by reflexivity.
  rewrite ProcFacts.bind_ret_l.
  rewrite str_SHEET_W, str_SHEET_H, str_FRAME_W, str_FRAME_H.
  destruct (Float.ltb pct (Float.literal (1 # 100))); reflexivity.
Qed.

End Decoded.

(** [check] raises exactly when the file does not decode. *)
Lemma check_of_undecodable (W : world) (path : string) :
  (forall img, fs W path <> Some (Decodable img)) ->
  check W path = ([EvOpen path], inl (DecodeError path)).
Proof.
  intros H. unfold check, Image_open_RGBA, bind.
  destruct (fs W path) as [[img | ] | ]; try reflexivity.
  now destruct (H img).
Qed.

Lemma check_shape (W : world) (path res : string) :
  outcome (check W path) = inr res ->
  exists img, fs W path = Some (Decodable img)
              /\ check W path = ([EvOpen path], inr res)
              /\ result_shape res.
Proof.
  intros H.
  destruct (fs W path) as [[img | ] | ] eqn:E.
  - exists img. split; [reflexivity |].
    destruct (size_eqb (size img) (SHEET_W, SHEET_H)) eqn:Hs.
    + apply size_eqb_eq in Hs.
      pose proof (check_of_sheet W path img E Hs) as Hc. cbv zeta in Hc.
      rewrite Hc in H |- *. unfold outcome in H. cbn [snd] in H.
      injection H as <-. split; [reflexivity |].
      destruct (Float.ltb _ _).
      * eapply shape_no_transparency. reflexivity.
      * eapply shape_ok. reflexivity.
    + apply size_eqb_neq in Hs.
      pose proof (check_of_wrong_size W path img E Hs) as Hc.
      rewrite Hc in H |- *. unfold outcome in H. cbn [snd] in H.
      injection H as <-. split; [reflexivity |].
      eapply shape_wrong_size. reflexivity.
  - rewrite check_of_undecodable in H by (intros img; congruence).
    discriminate.
  - rewrite check_of_undecodable in H by (intros img; congruence).
    discriminate.
Qed.

(** A result starts with FAIL or with OK, never both. *)
Lemma shape_fail_or_ok (res : string) :
  result_shape res ->
  startswith res "FAIL" = negb (startswith res "OK").
Proof. intros [s -> | s -> | s ->]; reflexivity. Qed.

End CheckFacts.

(* ================================================================== *)
(** ** Properties of [check]                                            *)
(* ================================================================== *)

Module CheckSpec.
Import PyStr PIL Proc ValidateSprites Notions Examples.

(** C3. For every decoded image whose size is not 1024x256, [check]
    returns "FAIL wrong size <W>x<H> (expected 1024x256)" with the actual
    width and height. The size test is the first one: the result is the
    same whatever the width modulo 4 and whatever the pixels, and it is
    neither the divisibility message nor the transparency message. *)
Theorem wrong_size_reported_first (W : world) (path : string) (img : image rgba) :
  fs W path = Some (Decodable img) ->
  size img <> (SHEET_W, SHEET_H) ->
  let res := "FAIL wrong size " ++ str (fst (size img)) ++ "x"
             ++ str (snd (size img)) ++ " (expected 1024x256)" in
  check W path = ([EvOpen path], inr res)
  /\ startswith res "FAIL width not divisible" = false
  /\ startswith res "FAIL no real transparency" = false.
Proof.
  intros Hfile Hsz res. split; [| split; reflexivity].
  now apply CheckFacts.check_of_wrong_size.
Qed.

Lemma wrong_size_reported_first_witness :
  fs repo_narrow idle = Some (Decodable (sheet 1023 256 4096))
  /\ size (sheet 1023 256 4096) <> (SHEET_W, SHEET_H)
  /\ check repo_narrow idle
     = ([EvOpen idle], inr "FAIL wrong size 1023x256 (expected 1024x256)").
Proof.
  assert (Hf : fs repo_narrow idle = Some (Decodable (sheet 1023 256 4096)))
    by reflexivity.
  assert (Hs : size (sheet 1023 256 4096) <> (SHEET_W, SHEET_H))
    by (vm_compute; intros H; discriminate H).
  split; [exact Hf | split; [exact Hs |]].
  exact (proj1 (wrong_size_reported_first repo_narrow idle _ Hf Hs)).
Defined.

(** C2, as the specification has it, fails: a 1023x256 image does not get
    the divisibility message. *)
Lemma narrow_sheet_not_divisibility_message :
  fs repo_narrow idle = Some (Decodable (sheet 1023 256 4096))
  /\ size (sheet 1023 256 4096) = (1023, 256)%N
  /\ ~ (exists tail, outcome (check repo_narrow idle)
                     = inr ("FAIL width not divisible by 4: " ++ tail)).
Proof.
  split; [reflexivity | split; [reflexivity |]].
  intros [tail H]. vm_compute in H. discriminate H.
Qed.

(** C2, amended. For an image sized 1023x256 the size test returns first:
    the result is "FAIL wrong size 1023x256 (expected 1024x256)"; the
    divisibility test is not reached. *)
Theorem narrow_sheet_wrong_size (W : world) (path : string) (img : image rgba) :
  fs W path = Some (Decodable img) ->
  size img = (1023, 256)%N ->
  check W path
  = ([EvOpen path], inr "FAIL wrong size 1023x256 (expected 1024x256)").
Proof.
  intros Hfile Hsz.
  rewrite (CheckFacts.check_of_wrong_size W path img Hfile)
    by (rewrite Hsz; discriminate).
  rewrite Hsz. reflexivity.
Qed.

Lemma narrow_sheet_wrong_size_witness :
  fs repo_narrow idle = Some (Decodable (sheet 1023 256 4096))
  /\ size (sheet 1023 256 4096) = (1023, 256)%N
  /\ check repo_narrow idle
     = ([EvOpen idle], inr "FAIL wrong size 1023x256 (expected 1024x256)").
Proof.
  split; [reflexivity | split; [reflexivity |]].
  apply (narrow_sheet_wrong_size repo_narrow idle (sheet 1023 256 4096));
    reflexivity.
Defined.

(** C10. [check] never returns the message "FAIL width not divisible by
    4": whenever it returns, the file decoded and either the size test
    returned first or the width is a multiple of the frame count, so the
    condition of the divisibility test is false where it is evaluated. *)
Theorem divisibility_failure_unreachable (W : world) (path res : string) :
  outcome (check W path) = inr res ->
  startswith res "FAIL width not divisible" = false
  /\ exists img, fs W path = Some (Decodable img)
                 /\ (size img <> (SHEET_W, SHEET_H)
                     \/ (fst (size img) mod FRAMES)%N = 0%N).
Proof.
  intros H. destruct (CheckFacts.check_shape W path res H) as (img & Hf & _ & Hsh).
  split.
  - destruct Hsh as [s -> | s -> | s ->]; reflexivity.
  - exists img. split; [exact Hf |].
    destruct (size_eqb (size img) (SHEET_W, SHEET_H)) eqn:Hs.
    + right. destruct (size img) as [w h].
      apply CheckFacts.sheet_width_divisible in Hs.
      now apply N.eqb_eq in Hs.
    + left. now apply CheckFacts.size_eqb_neq.
Qed.

Lemma divisibility_failure_unreachable_witness :
  outcome (check repo_narrow idle)
  = inr "FAIL wrong size 1023x256 (expected 1024x256)"
  /\ startswith "FAIL wrong size 1023x256 (expected 1024x256)"
       "FAIL width not divisible" = false.
Proof.
  assert (H : outcome (check repo_narrow idle)
              = inr "FAIL wrong size 1023x256 (expected 1024x256)")
    by (vm_compute; reflexivity).
  split; [exact H |].
  exact (proj1 (divisibility_failure_unreachable repo_narrow idle _ H)).
Defined.

(** C5, as the specification has it, fails: for a fully opaque sheet of
    the right size the percentage is not printed with two decimals. *)
Lemma opaque_sheet_not_two_decimals :
  fs repo_opaque idle = Some (Decodable (sheet 1024 256 0))
  /\ size (sheet 1024 256 0) = (1024, 256)%N
  /\ transparent_pixels (sheet 1024 256 0) = 0%N
  /\ outcome (check repo_opaque idle)
     <> inr "FAIL no real transparency (alpha0=0.00%)".
Proof.
  split; [reflexivity | split; [reflexivity | split]].
  - vm_compute. reflexivity.
  - vm_compute. intros H. discriminate H.
Qed.

(** C5, amended. For an image of the right size without any fully
    transparent pixel, [check] returns the transparency failure with the
    percentage printed with four decimals:
    "FAIL no real transparency (alpha0=0.0000%)". *)
Theorem opaque_sheet_message (W : world) (path : string) (img : image rgba) :
  fs W path = Some (Decodable img) ->
  size img = (SHEET_W, SHEET_H) ->
  transparent_pixels img = 0%N ->
  check W path
  = ([EvOpen path], inr "FAIL no real transparency (alpha0=0.0000%)").
Proof.
  intros Hfile Hsz H0.
  pose proof (CheckFacts.check_of_sheet W path img Hfile Hsz) as Hc.
  cbv zeta in Hc. rewrite H0 in Hc. exact Hc.
Qed.

Lemma opaque_sheet_message_witness :
  fs repo_opaque idle = Some (Decodable (sheet 1024 256 0))
  /\ size (sheet 1024 256 0) = (SHEET_W, SHEET_H)
  /\ transparent_pixels (sheet 1024 256 0) = 0%N
  /\ check repo_opaque idle
     = ([EvOpen idle], inr "FAIL no real transparency (alpha0=0.0000%)").
Proof.
  assert (H0 : transparent_pixels (sheet 1024 256 0) = 0%N)
    by (vm_compute; reflexivity).
  split; [reflexivity | split; [reflexivity | split; [exact H0 |]]].
  exact (opaque_sheet_message repo_opaque idle (sheet 1024 256 0)
           eq_refl eq_refl H0).
Defined.

(** C4. For every decoded 1024x256 image, with pct the exact ratio of the
    pixels whose alpha is 0 to all 1024*256 pixels: below 0.01 [check]
    returns the transparency failure, at 0.01 or above it returns OK. The
    comparison is strict, so a share of exactly 0.01 passes. *)
Theorem transparency_threshold (W : world) (path : string) (img : image rgba) :
  fs W path = Some (Decodable img) ->
  size img = (SHEET_W, SHEET_H) ->
  well_formed img ->
  let pct := Float.truediv (transparent_pixels img) (SHEET_W * SHEET_H) in
  (transparent_share img < 1 # 100 ->
   outcome (check W path)
   = inr ("FAIL no real transparency (alpha0="
          ++ PyFormat.percent 4 pct ++ ")"))
  /\ (1 # 100 <= transparent_share img ->
      outcome (check W path)
      = inr ("OK size=1024x256 alpha0=" ++ PyFormat.percent 2 pct
             ++ " frame=256x256")).
Proof.
  intros Hfile Hsz Hwf pct.
  pose proof (CheckFacts.check_of_sheet W path img Hfile Hsz) as Hc.
  cbv zeta in Hc. rewrite Hc. unfold outcome. cbn [snd].
  assert (Hk : (transparent_pixels img <= 262144)%N).
  { pose proof (CheckFacts.transparent_pixels_le img) as Hle.
    unfold well_formed in Hwf. rewrite Hwf, Hsz in Hle. exact Hle. }
  pose proof (FloatFacts.sheet_below_threshold _ Hk) as Hthr.
  assert (Hshare : transparent_share img
                   = Qmake (Z.of_N (transparent_pixels img)) 262144).
  { unfold transparent_share. rewrite Hsz. reflexivity. }
  rewrite Hshare.
  change (SHEET_W * SHEET_H)%N with 262144%N in pct. fold pct.
  fold pct in Hthr.
  destruct (Float.ltb pct (Float.literal (1 # 100))) eqn:E.
  - split; [reflexivity |].
    intros Hge. apply Qle_not_lt in Hge. destruct Hge. now apply Hthr.
  - split; [| reflexivity].
    intros Hlt. apply Hthr in Hlt. discriminate Hlt.
Qed.

Lemma transparency_threshold_witness :
  fs repo_threshold idle = Some (Decodable (sheet 1024 256 2622))
  /\ size (sheet 1024 256 2622) = (SHEET_W, SHEET_H)
  /\ well_formed (sheet 1024 256 2622)
  /\ 1 # 100 <= transparent_share (sheet 1024 256 2622)
  /\ outcome (check repo_threshold idle)
     = inr "OK size=1024x256 alpha0=1.00% frame=256x256".
Proof.
  assert (Hwf : well_formed (sheet 1024 256 2622))
    by (vm_compute; reflexivity).
  assert (Hge : 1 # 100 <= transparent_share (sheet 1024 256 2622))
    by (vm_compute; intros H; discriminate H).
  split; [reflexivity | split; [reflexivity | split; [exact Hwf |]]].
  split; [exact Hge |].
  pose proof (proj2 (transparency_threshold repo_threshold idle
                       (sheet 1024 256 2622) eq_refl eq_refl Hwf) Hge) as H.
  cbv zeta in H. rewrite H. vm_compute. reflexivity.
Defined.

(** No sheet of 1024x256 pixels has a transparent share of exactly 0.01:
    262144 is not a multiple of 100. *)
Remark share_never_one_percent (img : image rgba) :
  size img = (SHEET_W, SHEET_H) -> ~ transparent_share img == 1 # 100.
Proof.
  intros Hsz. unfold transparent_share. rewrite Hsz.
  unfold Qeq. cbn [Qnum Qden].
  change (Z.pos (Z.to_pos (Z.of_N (fst (SHEET_W, SHEET_H) * snd (SHEET_W, SHEET_H)))))
    with 262144%Z.
  lia.
Qed.

End CheckSpec.

(* ================================================================== *)
(** ** Paths                                                            *)
(* ================================================================== *)

Module PathFacts.
Import PyStr PosixPath Notions.

Lemma prefix_empty (s : string) : String.prefix "" s = true.
Proof. now destruct s. Qed.

Lemma append_empty_r (s : string) : s ++ "" = s.
Proof. induction s as [| c s IH]; simpl; congruence. Qed.

Lemma append_assoc (a b c : string) : (a ++ b) ++ c = a ++ b ++ c.
Proof. induction a as [| x a IH]; simpl; congruence. Qed.

Lemma component_inv (c : string) :
  component c = true ->
  exists x s, c = String x s /\ Ascii.eqb x "/" = false /\ no_slash s = true.
Proof.
  unfold component. destruct c as [| x s]; [discriminate |].
  cbn [String.eqb negb andb no_slash].
  intros H. apply andb_true_iff in H. destruct H as [Hx Hs].
  exists x, s. split; [reflexivity |].
  split; [now apply negb_true_iff | exact Hs].
Qed.

Lemma component_no_slash (c : string) : component c = true -> no_slash c = true.
Proof. unfold component. intros H. now apply andb_true_iff in H. Qed.

Lemma plain_component (c : string) : plain c = true -> component c = true.
Proof.
  unfold plain. intros H.
  apply andb_true_iff in H. destruct H as [H _].
  now apply andb_true_iff in H.
Qed.

Lemma plain_not_dots (c : string) :
  plain c = true ->
  String.eqb c "" = false /\ String.eqb c "." = false
  /\ String.eqb c ".." = false.
Proof.
  unfold plain, component. intros H.
  repeat (apply andb_true_iff in H; destruct H as [H ?]).
  repeat split; now apply negb_true_iff.
Qed.

(** *** Splitting at the slashes *)

Lemma split_slash_no_slash (c : string) :
  no_slash c = true -> split_slash c = [c].
Proof.
  induction c as [| x c IH]; [reflexivity |].
  cbn [no_slash split_slash]. intros H.
  apply andb_true_iff in H. destruct H as [Hx Hc].
  apply negb_true_iff in Hx. rewrite Hx, (IH Hc). reflexivity.
Qed.

Lemma split_slash_app (c s : string) :
  no_slash c = true -> split_slash (c ++ "/" ++ s) = c :: split_slash s.
Proof.
  induction c as [| x c IH]; [reflexivity |].
  cbn [no_slash]. intros H.
  apply andb_true_iff in H. destruct H as [Hx Hc].
  apply negb_true_iff in Hx.
  change (String x c ++ "/" ++ s) with (String x (c ++ "/" ++ s)).
  cbn [split_slash]. rewrite Hx, (IH Hc). reflexivity.
Qed.

Lemma concat_cons (c : string) (l : list string) :
  l <> [] -> String.concat "/" (c :: l) = c ++ "/" ++ String.concat "/" l.
Proof. destruct l; [congruence | reflexivity]. Qed.

Lemma concat_snoc (l : list string) (c : string) :
  l <> [] ->
  String.concat "/" (l ++ [c]) = String.concat "/" l ++ "/" ++ c.
Proof.
  induction l as [| a l IH]; [congruence |]. intros _.
  destruct l as [| b l].
  - reflexivity.
  - change ((a :: b :: l) ++ [c])%list with (a :: ((b :: l) ++ [c]))%list.
    rewrite concat_cons by (cbn; discriminate).
    rewrite IH by discriminate.
    rewrite (concat_cons a (b :: l)) by discriminate.
    now rewrite !append_assoc.
Qed.

Lemma split_slash_concat (l : list string) :
  l <> [] -> forallb no_slash l = true ->
  split_slash (String.concat "/" l) = l.
Proof.
  induction l as [| c l IH]; [congruence |]. intros _ H.
  cbn [forallb] in H. apply andb_true_iff in H. destruct H as [Hc Hl].
  destruct l as [| d l].
  - now apply split_slash_no_slash.
  - rewrite concat_cons by discriminate.
    rewrite split_slash_app by exact Hc.
    now rewrite IH by (discriminate || exact Hl).
Qed.

Lemma split_slash_abs_path (l : list string) :
  l <> [] -> forallb no_slash l = true ->
  split_slash (abs_path l) = "" :: l.
Proof.
  intros Hne Hl. unfold abs_path.
  change ("/" ++ String.concat "/" l)
    with ("" ++ "/" ++ String.concat "/" l).
  rewrite split_slash_app by reflexivity.
  now rewrite split_slash_concat.
Qed.

(** *** The end of a path *)

Lemma all_slash_times (n : nat) : all_slash (times "/" n) = true.
Proof. induction n as [| n IH]; [reflexivity | exact IH]. Qed.

Lemma all_slash_app (a b : string) :
  all_slash (a ++ b) = all_slash a && all_slash b.
Proof.
  induction a as [| x a IH]; [reflexivity |].
  cbn [append all_slash]. now rewrite IH, andb_assoc.
Qed.

Lemma component_not_all_slash (c : string) :
  component c = true -> all_slash c = false.
Proof.
  intros H. destruct (component_inv c H) as (x & s & -> & Hx & _).
  cbn [all_slash]. now rewrite Hx.
Qed.

Lemma append_not_empty_r (a b : string) : b <> "" -> a ++ b <> "".
Proof. destruct a; [trivial | discriminate]. Qed.

Lemma endswith_slash_app (a b : string) :
  b <> "" -> endswith_slash (a ++ b) = endswith_slash b.
Proof.
  intros Hb. induction a as [| x a IH]; [reflexivity |].
  change (String x a ++ b) with (String x (a ++ b)).
  pose proof (append_not_empty_r a b Hb) as Hab.
  cbn [endswith_slash]. destruct (a ++ b); [congruence | exact IH].
Qed.

Lemma endswith_slash_no_slash (c : string) :
  no_slash c = true -> endswith_slash c = false.
Proof.
  induction c as [| x c IH]; [reflexivity |].
  cbn [no_slash]. intros H.
  apply andb_true_iff in H. destruct H as [Hx Hc].
  apply negb_true_iff in Hx.
  cbn [endswith_slash]. destruct c; [exact Hx | now apply IH].
Qed.

Lemma component_not_empty (c : string) : component c = true -> c <> "".
Proof. intros H ->. discriminate H. Qed.

Lemma rstrip_slash_clean (s : string) :
  endswith_slash s = false -> rstrip_slash s = s.
Proof.
  induction s as [| x s IH]; [reflexivity |].
  cbn [endswith_slash rstrip_slash]. destruct s as [| y s].
  - intros Hx. cbn [rstrip_slash String.eqb andb]. now rewrite Hx.
  - intros H. rewrite (IH H). reflexivity.
Qed.

Lemma rstrip_slash_app_slash (s : string) :
  rstrip_slash (s ++ "/") = rstrip_slash s.
Proof.
  induction s as [| x s IH]; [reflexivity |].
  change (String x s ++ "/") with (String x (s ++ "/")).
  cbn [rstrip_slash]. now rewrite IH.
Qed.

Lemma through_last_slash_no_slash (c : string) :
  no_slash c = true -> through_last_slash c = "".
Proof.
  induction c as [| x c IH]; [reflexivity |].
  cbn [no_slash through_last_slash]. intros H.
  apply andb_true_iff in H. destruct H as [Hx Hc].
  apply negb_true_iff in Hx. now rewrite (IH Hc), Hx.
Qed.

Lemma through_last_slash_app (a c : string) :
  no_slash c = true -> through_last_slash (a ++ "/" ++ c) = a ++ "/".
Proof.
  intros Hc. induction a as [| x a IH].
  - change ("" ++ "/" ++ c) with (String "/" c).
    cbn [through_last_slash]. now rewrite (through_last_slash_no_slash c Hc).
  - change (String x a ++ "/" ++ c) with (String x (a ++ "/" ++ c)).
    cbn [through_last_slash]. rewrite IH.
    assert (E : String.eqb (a ++ "/") "" = false).
    { apply String.eqb_neq, append_not_empty_r. discriminate. }
    now rewrite E.
Qed.

(** *** Absolute paths of components *)

Lemma abs_path_snoc (l : list string) (c : string) :
  l <> [] -> abs_path (l ++ [c]) = abs_path l ++ "/" ++ c.
Proof.
  intros Hl. unfold abs_path. now rewrite concat_snoc.
Qed.

Lemma forallb_last_component (l : list string) :
  l <> [] -> forallb component l = true ->
  exists l' c, l = (l' ++ [c])%list /\ component c = true
               /\ forallb component l' = true.
Proof.
  intros Hl H. destruct (exists_last Hl) as (l' & c & ->).
  rewrite forallb_app in H. apply andb_true_iff in H.
  destruct H as [Hl' Hc]. cbn in Hc. rewrite andb_true_r in Hc.
  eauto.
Qed.

Lemma endswith_slash_abs_path (l : list string) :
  l <> [] -> forallb component l = true ->
  endswith_slash (abs_path l) = false.
Proof.
  intros Hl H.
  destruct (forallb_last_component l Hl H) as (l' & c & -> & Hc & _).
  assert (E : abs_path (l' ++ [c]) = (abs_path l' ++ "/") ++ c
              \/ abs_path (l' ++ [c]) = "/" ++ c).
  { destruct l' as [| a l'].
    - right. reflexivity.
    - left. rewrite abs_path_snoc by discriminate.
      now rewrite append_assoc. }
  destruct E as [-> | ->];
    rewrite endswith_slash_app by now apply component_not_empty.
  all: now apply endswith_slash_no_slash, component_no_slash.
Qed.

Lemma abs_path_not_all_slash (l : list string) :
  l <> [] -> forallb component l = true -> all_slash (abs_path l) = false.
Proof.
  intros Hl H. destruct l as [| c l]; [congruence |].
  cbn [forallb] in H. apply andb_true_iff in H. destruct H as [Hc _].
  unfold abs_path. rewrite all_slash_app.
  destruct l as [| d l].
  - cbn [String.concat]. rewrite (component_not_all_slash c Hc). reflexivity.
  - rewrite concat_cons by discriminate.
    rewrite all_slash_app, (component_not_all_slash c Hc). reflexivity.
Qed.

(** [dirname] drops the last component. *)
Lemma dirname_abs_path (l : list string) (name : string) :
  forallb component l = true -> component name = true ->
  dirname (abs_path (l ++ [name])) = abs_path l.
Proof.
  intros Hl Hn. pose proof (component_no_slash name Hn) as Hns.
  destruct l as [| a l].
  - unfold dirname. cbn [app]. unfold abs_path. cbn [String.concat].
    change ("/" ++ name) with ("" ++ "/" ++ name).
    rewrite through_last_slash_app by exact Hns. reflexivity.
  - unfold dirname. rewrite abs_path_snoc by discriminate.
    rewrite through_last_slash_app by exact Hns.
    assert (Hne : String.eqb (abs_path (a :: l) ++ "/") "" = false).
    { apply String.eqb_neq. apply append_not_empty_r. discriminate. }
    assert (Hna : String.eqb (abs_path (a :: l) ++ "/")
                    (times "/" (String.length (abs_path (a :: l) ++ "/")))
                  = false).
    { apply String.eqb_neq. intros E.
      pose proof (all_slash_times (String.length (abs_path (a :: l) ++ "/")))
        as Hall.
      rewrite <- E, all_slash_app in Hall.
      rewrite abs_path_not_all_slash in Hall by (discriminate || exact Hl).
      discriminate Hall. }
    rewrite Hne, Hna. cbn [negb andb].
    rewrite rstrip_slash_app_slash.
    apply rstrip_slash_clean.
    apply endswith_slash_abs_path; [discriminate | exact Hl].
Qed.

(** [join] adds a component. *)
Lemma join2_abs_path (l : list string) (c : string) :
  forallb component l = true -> component c = true ->
  join2 (abs_path l) c = abs_path (l ++ [c]).
Proof.
  intros Hl Hc. unfold join2.
  destruct (component_inv c Hc) as (x & s & -> & Hx & _).
  assert (Hs : startswith (String x s) "/" = false).
  { unfold startswith. cbn [String.prefix].
    destruct (ascii_dec "/" x) as [<- | _]; [discriminate Hx | reflexivity]. }
  rewrite Hs. destruct l as [| a l].
  - reflexivity.
  - rewrite endswith_slash_abs_path by (discriminate || exact Hl).
    assert (Hne : String.eqb (abs_path (a :: l)) "" = false) by reflexivity.
    rewrite Hne. cbn [orb].
    now rewrite abs_path_snoc by discriminate.
Qed.

Lemma join_abs_path (l cs : list string) :
  forallb component l = true -> forallb component cs = true ->
  join (abs_path l) cs = abs_path (l ++ cs).
Proof.
  revert l. induction cs as [| c cs IH]; intros l Hl Hcs.
  - now rewrite app_nil_r.
  - cbn [forallb] in Hcs. apply andb_true_iff in Hcs.
    destruct Hcs as [Hc Hcs].
    unfold join in *. cbn [fold_left].
    rewrite join2_abs_path by assumption.
    rewrite IH.
    + now rewrite <- app_assoc.
    + rewrite forallb_app, Hl. cbn. now rewrite Hc.
    + exact Hcs.
Qed.

(** *** [normpath] *)

Lemma normpath_step_plain (acc : list string) (c : string) :
  plain c = true -> normpath_step 1 acc c = (acc ++ [c])%list.
Proof.
  intros H. destruct (plain_not_dots c H) as (H1 & H2 & H3).
  unfold normpath_step. now rewrite H1, H2, H3.
Qed.

Lemma fold_normpath_step_plain (cs acc : list string) :
  forallb plain cs = true ->
  fold_left (normpath_step 1) cs acc = (acc ++ cs)%list.
Proof.
  revert acc. induction cs as [| c cs IH]; intros acc H.
  - now rewrite app_nil_r.
  - cbn [forallb] in H. apply andb_true_iff in H. destruct H as [Hc Hcs].
    cbn [fold_left]. rewrite normpath_step_plain by exact Hc.
    rewrite IH by exact Hcs. now rewrite <- app_assoc.
Qed.

(** A ".." after plain components removes the last of them, and nothing
    at the root. *)
Lemma normpath_step_dotdot (acc : list string) :
  forallb plain acc = true -> normpath_step 1 acc ".." = removelast acc.
Proof.
  intros H. unfold normpath_step.
  cbn [String.eqb Ascii.eqb Bool.eqb orb negb andb Nat.eqb].
  destruct acc as [| a acc]; [reflexivity |].
  assert (Hne : a :: acc <> []) by discriminate.
  destruct (exists_last Hne) as (l' & c & E). rewrite E in *.
  rewrite last_last.
  rewrite forallb_app in H. apply andb_true_iff in H. destruct H as [_ Hc].
  cbn [forallb] in Hc. rewrite andb_true_r in Hc.
  destruct (plain_not_dots c Hc) as (_ & _ & H3). rewrite H3.
  destruct (l' ++ [c])%list eqn:E'; [| reflexivity].
  now destruct (app_cons_not_nil l' [] c).
Qed.

Lemma startswith_slash_component (c s : string) :
  component c = true -> startswith (c ++ s) "/" = false.
Proof.
  intros H. destruct (component_inv c H) as (x & t & -> & Hx & _).
  unfold startswith. cbn [append String.prefix].
  destruct (ascii_dec "/" x) as [<- | _]; [discriminate Hx | reflexivity].
Qed.

Lemma initial_slashes_abs_path (l : list string) :
  forallb component l = true -> initial_slashes (abs_path l) = 1%nat.
Proof.
  intros H. unfold initial_slashes, abs_path.
  assert (H2 : startswith ("/" ++ String.concat "/" l) "//" = false).
  { destruct l as [| c l]; [reflexivity |].
    cbn [forallb] in H. apply andb_true_iff in H. destruct H as [Hc _].
    assert (E : exists s, String.concat "/" (c :: l) = c ++ s).
    { destruct l as [| d l].
      - exists "". cbn [String.concat]. now rewrite append_empty_r.
      - eexists. now rewrite concat_cons by discriminate. }
    destruct E as [s ->].
    pose proof (startswith_slash_component c s Hc) as Hs.
    unfold startswith in *. cbn [append String.prefix].
    destruct (ascii_dec "/" "/"); [exact Hs | reflexivity]. }
  rewrite H2. unfold startswith. cbn [append String.prefix].
  destruct (ascii_dec "/" "/"); [| congruence].
  now rewrite prefix_empty.
Qed.

Lemma forallb_plain_component (l : list string) :
  forallb plain l = true -> forallb component l = true.
Proof.
  induction l as [| c l IH]; [reflexivity |].
  cbn [forallb]. intros H. apply andb_true_iff in H. destruct H as [Hc Hl].
  now rewrite (plain_component c Hc), IH.
Qed.

Lemma forallb_component_no_slash (l : list string) :
  forallb component l = true -> forallb no_slash l = true.
Proof.
  induction l as [| c l IH]; [reflexivity |].
  cbn [forallb]. intros H. apply andb_true_iff in H. destruct H as [Hc Hl].
  now rewrite (component_no_slash c Hc), IH.
Qed.

Lemma forallb_removelast {A} (p : A -> bool) (l : list A) :
  forallb p l = true -> forallb p (removelast l) = true.
Proof.
  induction l as [| a l IH]; [reflexivity |].
  cbn [forallb]. intros H. apply andb_true_iff in H. destruct H as [Ha Hl].
  destruct l as [| b l]; [reflexivity |].
  change (removelast (a :: b :: l)) with (a :: removelast (b :: l)).
  cbn [forallb]. now rewrite Ha, IH.
Qed.

(** [normpath] resolves a final ".." against the component before it. *)
Lemma normpath_abs_path_dotdot (cs : list string) :
  forallb plain cs = true ->
  normpath (abs_path (cs ++ [".."])) = abs_path (removelast cs).
Proof.
  intros H. pose proof (forallb_plain_component cs H) as Hc.
  assert (Hall : forallb component (cs ++ [".."]) = true)
    by (rewrite forallb_app, Hc; reflexivity).
  unfold normpath.
  assert (Hne : String.eqb (abs_path (cs ++ [".."])) "" = false)
    by reflexivity.
  rewrite Hne, (initial_slashes_abs_path _ Hall).
  rewrite split_slash_abs_path
    by (try apply forallb_component_no_slash; try exact Hall;
        now destruct cs).
  cbn [fold_left]. change (normpath_step 1 [] "") with (@nil string).
  rewrite fold_left_app, (fold_normpath_step_plain cs [] H).
  cbn [fold_left app]. rewrite (normpath_step_dotdot cs H).
  reflexivity.
Qed.

Lemma isabs_abs_path (l : list string) : isabs (abs_path l) = true.
Proof.
  unfold isabs, startswith, abs_path. cbn [append String.prefix].
  destruct (ascii_dec "/" "/"); [| congruence].
  apply prefix_empty.
Qed.

(** From the path of a file to the parent of its directory. *)
Lemma abspath_parent_of_dirname (cwd : string) (l : list string) (name : string) :
  forallb plain l = true -> component name = true ->
  abspath cwd (join (dirname (abs_path (l ++ [name]))) [".."])
  = abs_path (removelast l).
Proof.
  intros Hl Hn. pose proof (forallb_plain_component l Hl) as Hc.
  rewrite dirname_abs_path by assumption.
  unfold join. cbn [fold_left].
  rewrite join2_abs_path by (exact Hc || reflexivity).
  unfold abspath. rewrite isabs_abs_path.
  now apply normpath_abs_path_dotdot.
Qed.

(** *** Absolute paths stay absolute *)

Lemma rstrip_slash_empty (s : string) :
  rstrip_slash s = "" -> all_slash s = true.
Proof.
  induction s as [| x s IH]; [reflexivity |].
  cbn [rstrip_slash all_slash].
  destruct (String.eqb (rstrip_slash s) "") eqn:E.
  - apply String.eqb_eq in E.
    destruct (Ascii.eqb x "/"); [intros _; now apply IH | discriminate].
  - discriminate.
Qed.

Lemma all_slash_eq_times (s : string) :
  all_slash s = true -> s = times "/" (String.length s).
Proof.
  induction s as [| x s IH]; [reflexivity |].
  cbn [all_slash String.length times]. intros H.
  apply andb_true_iff in H. destruct H as [Hx Hs].
  apply Ascii.eqb_eq in Hx. subst x. now rewrite <- IH.
Qed.

Lemma isabs_dirname (p : string) :
  isabs p = true -> isabs (dirname p) = true.
Proof.
  unfold isabs, startswith. destruct p as [| x p]; [discriminate |].
  cbn [String.prefix]. destruct (ascii_dec "/" x) as [<- | _]; [| discriminate].
  intros _. unfold dirname. cbn [through_last_slash Ascii.eqb Bool.eqb].
  set (h := through_last_slash p).
  assert (Hhead : exists t, (if String.eqb h "" then "/" else String "/" h)
                            = String "/" t)
    by (destruct (String.eqb h ""); eauto).
  destruct Hhead as [t ->].
  destruct (negb (String.eqb (String "/" t) "")
            && negb (String.eqb (String "/" t)
                       (times "/" (String.length (String "/" t))))) eqn:E.
  - apply andb_true_iff in E. destruct E as [_ E].
    apply negb_true_iff, String.eqb_neq in E.
    cbn [rstrip_slash].
    destruct (String.eqb (rstrip_slash t) "") eqn:Er.
    + apply String.eqb_eq, rstrip_slash_empty in Er.
      destruct E. apply all_slash_eq_times. cbn [all_slash]. exact Er.
    + cbn [Ascii.eqb Bool.eqb andb String.prefix].
      destruct (ascii_dec "/" "/"); [| congruence].
      apply prefix_empty.
  - cbn [String.prefix]. destruct (ascii_dec "/" "/"); [| congruence].
    apply prefix_empty.
Qed.

Lemma isabs_join2_dotdot (a : string) :
  isabs a = true -> isabs (join2 a "..") = true.
Proof.
  unfold isabs, startswith, join2. destruct a as [| x a]; [discriminate |].
  cbn [String.prefix]. destruct (ascii_dec "/" x) as [<- | _]; [| discriminate].
  intros _. cbn [String.prefix].
  destruct (ascii_dec "/" "."); [discriminate |].
  destruct (String.eqb (String "/" a) "" || endswith_slash (String "/" a));
    cbn [append String.prefix];
    (destruct (ascii_dec "/" "/"); [| congruence]).
  - apply prefix_empty.
  - apply prefix_empty.
Qed.

(** With an absolute [__file__] the repository root does not depend on
    the current directory. *)
Lemma abspath_of_absolute (cwd1 cwd2 p : string) :
  isabs p = true ->
  abspath cwd1 (join (dirname p) [".."]) = abspath cwd2 (join (dirname p) [".."]).
Proof.
  intros H. unfold abspath, join. cbn [fold_left].
  now rewrite (isabs_join2_dotdot _ (isabs_dirname p H)).
Qed.

End PathFacts.

(* ================================================================== *)
(** ** The loop of [main]                                               *)
(* ================================================================== *)

Module MainFacts.
Import PyStr PIL Proc ValidateSprites Notions.
Local Open Scope py_scope.

Section Loop.
Variable W : world.

(** One turn of the loop, by what is found at the path. *)
Lemma for_files_missing (f : string) (rest : list string) (ok : bool) :
  missing W f ->
  for_files W (f :: rest) ok
  = (([EvExists (sprite_path W f); EvPrint ("MISSING " ++ f)]
      ++ trace (for_files W rest false))%list,
     outcome (for_files W rest false)).
Proof.
  unfold missing, sprite_path. intros H.
  cbn [for_files]. unfold os_path_exists, print, bind.
  rewrite H. cbn [negb].
  destruct (for_files W rest false) as [t r]. reflexivity.
Qed.

Lemma for_files_checked (f : string) (rest : list string) (ok : bool)
      (t : list event) (res : string) :
  fs W (sprite_path W f) <> None ->
  check W (sprite_path W f) = (t, inr res) ->
  let ok' := if startswith res "FAIL" then false else ok in
  for_files W (f :: rest) ok
  = (([EvExists (sprite_path W f)] ++ t ++ [EvPrint (f ++ ": " ++ res)]
      ++ trace (for_files W rest ok'))%list,
     outcome (for_files W rest ok')).
Proof.
  intros H Hc ok'. unfold sprite_path in *.
  cbn [for_files]. unfold os_path_exists, print. unfold bind at 1.
  destruct (fs W (PosixPath.join (ROOT W) [f])); [| congruence].
  cbn [negb]. rewrite Hc. unfold bind. fold ok'.
  destruct (for_files W rest ok') as [t' r]. cbn [trace outcome fst snd].
  rewrite <- ?app_assoc. reflexivity.
Qed.

Lemma for_files_raises (f : string) (rest : list string) (ok : bool)
      (t : list event) (e : exn) :
  fs W (sprite_path W f) <> None ->
  check W (sprite_path W f) = (t, inl e) ->
  for_files W (f :: rest) ok = (([EvExists (sprite_path W f)] ++ t)%list, inl e).
Proof.
  unfold sprite_path. intros H Hc.
  cbn [for_files]. unfold os_path_exists. unfold bind at 1.
  destruct (fs W (PosixPath.join (ROOT W) [f])); [| congruence].
  cbn [negb]. rewrite Hc. reflexivity.
Qed.

(** Every turn of the loop is one of the three cases of [turn]. *)
Lemma turn_cases (f : string) : turn W f.
Proof.
  destruct (fs W (sprite_path W f)) as [[img | ] | ] eqn:E.
  - destruct (size_eqb (size img) (SHEET_W, SHEET_H)) eqn:Hs.
    + apply CheckFacts.size_eqb_eq in Hs.
      pose proof (CheckFacts.check_of_sheet W _ img E Hs) as Hc.
      cbv zeta in Hc.
      eapply turn_checked; [exact E | exact Hc |].
      destruct (Float.ltb _ _).
      * eapply shape_no_transparency. reflexivity.
      * eapply shape_ok. reflexivity.
    + apply CheckFacts.size_eqb_neq in Hs.
      pose proof (CheckFacts.check_of_wrong_size W _ img E Hs) as Hc.
      eapply turn_checked; [exact E | exact Hc |].
      eapply shape_wrong_size. reflexivity.
  - apply turn_raises; [exact E |].
    apply CheckFacts.check_of_undecodable. intros img. congruence.
  - now apply turn_missing.
Qed.

Lemma passes_not_missing (f : string) : missing W f -> ~ passes W f.
Proof. intros Hm [Hp _]. contradiction. Qed.

Lemma passes_not_fails (f : string) : fails W f -> ~ passes W f.
Proof.
  intros (_ & res & Hc & Hf) (_ & res' & Hc' & Hok).
  rewrite Hc in Hc'. injection Hc' as <-.
  destruct (CheckFacts.check_shape _ _ _ Hc) as (_ & _ & _ & Hsh).
  rewrite (CheckFacts.shape_fail_or_ok _ Hsh), Hok in Hf. discriminate.
Qed.

(** The flag at the exit of the loop: true exactly when it was true at the
    entry and every file passed. After an exception some file did not
    pass, and the exception is not [SystemExit]. *)
Lemma for_files_outcome (files : list string) (ok : bool) :
  match outcome (for_files W files ok) with
  | inr b => b = true <-> (ok = true /\ Forall (passes W) files)
  | inl e => ~ Forall (passes W) files /\ forall c, e <> SystemExit c
  end.
Proof.
  revert ok. induction files as [| f rest IH]; intros ok.
  - cbn. split; [intros ->; auto | tauto].
  - destruct (turn_cases f) as [Hm | img res Hf Hc Hsh | Hf Hc].
    + rewrite (for_files_missing f rest ok Hm). cbn [outcome snd].
      specialize (IH false).
      destruct (outcome (for_files W rest false)) as [e | b].
      * destruct IH as [_ He]. split; [| exact He].
        intros HF. inversion HF; subst.
        now apply (passes_not_missing f).
      * split; [intros Hb; apply IH in Hb; destruct Hb; discriminate |].
        intros [_ HF]. inversion HF; subst.
        now destruct (passes_not_missing f).
    + assert (Hne : fs W (sprite_path W f) <> None) by congruence.
      pose proof (for_files_checked f rest ok _ _ Hne Hc) as Hstep.
      cbv zeta in Hstep. rewrite Hstep. cbn [outcome snd].
      pose proof (CheckFacts.shape_fail_or_ok _ Hsh) as Hfo.
      assert (Ho : outcome (check W (sprite_path W f)) = inr res)
        by now rewrite Hc.
      destruct (startswith res "FAIL") eqn:Efail.
      * assert (Hnp : ~ passes W f).
        { apply passes_not_fails. split; [exact Hne |]. eauto. }
        specialize (IH false).
        destruct (outcome (for_files W rest false)) as [e | b].
        -- destruct IH as [_ He]. split; [| exact He].
           intros HF. inversion HF; subst. contradiction.
        -- split; [intros Hb; apply IH in Hb; destruct Hb; discriminate |].
           intros [_ HF]. inversion HF; subst. contradiction.
      * assert (Hp : passes W f).
        { split; [exact Hne |]. exists res. split; [exact Ho |].
          symmetry in Hfo. now apply negb_false_iff in Hfo. }
        specialize (IH ok).
        destruct (outcome (for_files W rest ok)) as [e | b].
        -- destruct IH as [HnF He]. split; [| exact He].
           intros HF. inversion HF; subst. contradiction.
        -- rewrite IH. split; intros [Hok HF]; split; auto.
           now inversion HF.
    + assert (Hne : fs W (sprite_path W f) <> None) by congruence.
      rewrite (for_files_raises f rest ok _ _ Hne Hc). cbn [outcome snd].
      split; [| discriminate].
      intros HF. inversion HF as [| ? ? [_ (res & Ho & _)] _]; subst.
      rewrite Hc in Ho. discriminate Ho.
Qed.

(** The flag is never set back to true. *)
Lemma for_files_never_resets (files : list string) (ok b : bool) :
  outcome (for_files W files ok) = inr b -> b = true -> ok = true.
Proof.
  intros Ho Hb. pose proof (for_files_outcome files ok) as H.
  rewrite Ho in H. now apply H in Hb.
Qed.

(** The loop over a list cut in two. *)
Lemma for_files_app (l1 l2 : list string) (ok : bool) :
  for_files W (l1 ++ l2) ok
  = bind (for_files W l1 ok) (fun ok' => for_files W l2 ok').
Proof.
  revert ok. induction l1 as [| f l1 IH]; intros ok.
  - cbn [app for_files]. now rewrite ProcFacts.bind_ret_l.
  - rewrite <- app_comm_cons.
    destruct (turn_cases f) as [Hm | img res Hf Hc Hsh | Hf Hc].
    + rewrite !(for_files_missing f _ ok Hm), IH.
      apply ProcFacts.run_eq.
      * rewrite !ProcFacts.trace_bind. cbn [trace outcome fst snd].
        now rewrite <- app_assoc.
      * rewrite !ProcFacts.outcome_bind. reflexivity.
    + assert (Hne : fs W (sprite_path W f) <> None) by congruence.
      pose proof (for_files_checked f (l1 ++ l2) ok _ _ Hne Hc) as H1.
      pose proof (for_files_checked f l1 ok _ _ Hne Hc) as H2.
      cbv zeta in H1, H2. rewrite H1, H2, IH.
      apply ProcFacts.run_eq.
      * rewrite !ProcFacts.trace_bind. cbn [trace outcome fst snd].
        now rewrite <- !app_assoc.
      * rewrite !ProcFacts.outcome_bind. reflexivity.
    + assert (Hne : fs W (sprite_path W f) <> None) by congruence.
      rewrite !(for_files_raises f _ ok _ _ Hne Hc).
      reflexivity.
Qed.

(** Only what exists is ever opened. *)
Lemma for_files_opens_existing (files : list string) (ok : bool) (q : string) :
  In (EvOpen q) (trace (for_files W files ok)) -> fs W q <> None.
Proof.
  revert ok. induction files as [| f rest IH]; intros ok.
  - cbn. tauto.
  - destruct (turn_cases f) as [Hm | img res Hf Hc Hsh | Hf Hc].
    + rewrite (for_files_missing f rest ok Hm). cbn [trace fst].
      intros [H | [H | H]]; try discriminate H. eauto.
    + assert (Hne : fs W (sprite_path W f) <> None) by congruence.
      pose proof (for_files_checked f rest ok _ _ Hne Hc) as Hstep.
      cbv zeta in Hstep. rewrite Hstep. cbn [trace fst].
      intros [H | [H | [H | H]]]; try discriminate H.
      * injection H as <-. exact Hne.
      * eauto.
    + assert (Hne : fs W (sprite_path W f) <> None) by congruence.
      rewrite (for_files_raises f rest ok _ _ Hne Hc). cbn [trace fst].
      intros [H | [H | []]]; try discriminate H.
      injection H as <-. exact Hne.
Qed.

(** Without an undecodable file the loop runs to its end. *)
Lemma for_files_completes (files : list string) (ok : bool) :
  Forall (fun g => fs W (sprite_path W g) <> Some Undecodable) files ->
  exists b, outcome (for_files W files ok) = inr b.
Proof.
  revert ok. induction files as [| f rest IH]; intros ok HF.
  - exists ok. reflexivity.
  - inversion HF as [| ? ? Hf' HF']; subst.
    destruct (turn_cases f) as [Hm | img res Hf Hc Hsh | Hf Hc].
    + rewrite (for_files_missing f rest ok Hm). cbn [outcome snd]. eauto.
    + assert (Hne : fs W (sprite_path W f) <> None) by congruence.
      pose proof (for_files_checked f rest ok _ _ Hne Hc) as Hstep.
      cbv zeta in Hstep. rewrite Hstep. cbn [outcome snd]. eauto.
    + contradiction.
Qed.

End Loop.

(** [check] sees of the world only what lies at its path. *)
Lemma check_ext (W1 W2 : world) (p : string) :
  fs W1 p = fs W2 p -> check W1 p = check W2 p.
Proof.
  intros H. unfold check, Image_open_RGBA. now rewrite H.
Qed.

(** The loop sees of the world only the sprite root and what lies at the
    paths of its files. *)
Lemma for_files_ext (W1 W2 : world) (files : list string) (ok : bool) :
  ROOT W1 = ROOT W2 ->
  (forall f, In f files ->
             fs W1 (sprite_path W1 f) = fs W2 (sprite_path W2 f)) ->
  for_files W1 files ok = for_files W2 files ok.
Proof.
  intros HR. revert ok. induction files as [| f rest IH]; intros ok Hfs.
  - reflexivity.
  - assert (Hp : sprite_path W2 f = sprite_path W1 f)
      by (unfold sprite_path; now rewrite HR).
    assert (Hf : fs W2 (sprite_path W2 f) = fs W1 (sprite_path W1 f))
      by (symmetry; apply Hfs; now left).
    assert (IH' : forall b, for_files W1 rest b = for_files W2 rest b)
      by (intros b; apply IH; intros g Hg; apply Hfs; now right).
    assert (Hc : check W2 (sprite_path W2 f) = check W1 (sprite_path W1 f))
      by (rewrite Hp; apply check_ext; now rewrite <- Hf, Hp).
    destruct (turn_cases W1 f) as [Hm | img res Hf1 Hc1 Hsh | Hf1 Hc1].
    + rewrite (for_files_missing W1 f rest ok Hm).
      assert (Hm2 : missing W2 f) by (unfold missing in *; congruence).
      rewrite (for_files_missing W2 f rest ok Hm2).
      now rewrite Hp, IH'.
    + assert (Hn1 : fs W1 (sprite_path W1 f) <> None) by congruence.
      assert (Hn2 : fs W2 (sprite_path W2 f) <> None) by congruence.
      rewrite Hc1 in Hc.
      pose proof (for_files_checked W1 f rest ok _ _ Hn1 Hc1) as H1.
      pose proof (for_files_checked W2 f rest ok _ _ Hn2 Hc) as H2.
      cbv zeta in H1, H2. rewrite H1, H2.
      now rewrite Hp, IH'.
    + assert (Hn1 : fs W1 (sprite_path W1 f) <> None) by congruence.
      assert (Hn2 : fs W2 (sprite_path W2 f) <> None) by congruence.
      rewrite Hc1 in Hc.
      rewrite (for_files_raises W1 f rest ok _ _ Hn1 Hc1).
      rewrite (for_files_raises W2 f rest ok _ _ Hn2 Hc).
      now rewrite Hp.
Qed.

(** [main]: the header, the loop, the exit. *)
Lemma main_trace (W : world) :
  trace (main W) = (header W ++ trace (for_files W FILES true))%list.
Proof.
  unfold main, print. autorewrite with py_run.
  cbn [trace outcome fst snd app].
  unfold header, sys_exit, raise.
  destruct (outcome (for_files W FILES true));
    cbn [trace fst]; rewrite app_nil_r; reflexivity.
Qed.

Lemma main_exit_code (W : world) :
  exit_code W
  = match outcome (for_files W FILES true) with
    | inr true => 0%Z
    | _ => 1%Z
    end.
Proof.
  unfold exit_code, main, print. autorewrite with py_run.
  cbn [outcome snd].
  pose proof (for_files_outcome W FILES true) as H.
  unfold sys_exit, raise, exit_status.
  destruct (outcome (for_files W FILES true)) as [e | [|]];
    cbn [outcome snd]; try reflexivity.
  destruct H as [_ H]. destruct e; try reflexivity.
  now destruct (H code).
Qed.

End MainFacts.

(* ================================================================== *)
(** ** Properties of [main]                                             *)
(* ================================================================== *)

Module MainSpec.
Import PyStr PIL Proc ValidateSprites Notions Examples.

(** C1. The exit code is 0 if and only if every one of the six expected
    files exists and its check returns an OK result; it is 1 otherwise, in
    particular when a file is missing or a check returns a FAIL result. *)
Theorem exit_code_zero_iff_all_pass (W : world) :
  List.length FILES = 6%nat
  /\ (exit_code W = 0%Z <-> Forall (passes W) FILES)
  /\ (~ Forall (passes W) FILES -> exit_code W = 1%Z)
  /\ (Exists (fun f => missing W f \/ fails W f) FILES -> exit_code W = 1%Z).
Proof.
  assert (Hcode : exit_code W = 0%Z \/ exit_code W = 1%Z).
  { rewrite MainFacts.main_exit_code.
    destruct (outcome (for_files W FILES true)) as [e | [|]]; auto. }
  assert (Hiff : exit_code W = 0%Z <-> Forall (passes W) FILES).
  { rewrite MainFacts.main_exit_code.
    pose proof (MainFacts.for_files_outcome W FILES true) as H.
    destruct (outcome (for_files W FILES true)) as [e | b].
    - destruct H as [H _]. split; [discriminate | contradiction].
    - destruct b.
      + split; [intros _; now apply H | reflexivity].
      + split; [discriminate |].
        intros HF. assert (false = true) by (apply H; auto). discriminate. }
  assert (Hnot : ~ Forall (passes W) FILES -> exit_code W = 1%Z).
  { intros Hn. destruct Hcode as [H0 | H1]; [| exact H1].
    apply Hiff in H0. contradiction. }
  split; [reflexivity | split; [exact Hiff | split; [exact Hnot |]]].
  intros Hex. apply Hnot. intros HF.
  apply Exists_exists in Hex. destruct Hex as (f & Hin & Hbad).
  rewrite Forall_forall in HF. specialize (HF f Hin).
  destruct Hbad as [Hm | Hf].
  - now apply (MainFacts.passes_not_missing W f).
  - now apply (MainFacts.passes_not_fails W f).
Qed.

Lemma exit_code_zero_iff_all_pass_witness :
  Forall (passes repo_good) FILES /\ exit_code repo_good = 0%Z.
Proof.
  assert (HF : Forall (passes repo_good) FILES).
  { unfold FILES.
    repeat (apply Forall_cons;
            [ split;
              [ change (Some good <> None); discriminate
              | exists "OK size=1024x256 alpha0=1.56% frame=256x256";
                split; [vm_compute; reflexivity | reflexivity] ] | ]).
    apply Forall_nil. }
  split; [exact HF |].
  exact (proj2 (proj1 (proj2 (exit_code_zero_iff_all_pass repo_good))) HF).
Defined.

(** C8. The flag [ok] is monotonic. [main] enters the loop with the flag
    true and exits with 0 or 1 by the flag the loop leaves. A turn at a
    file that is missing or gets a FAIL result sets the flag to false, a
    turn at a file that passes leaves it as it is, and no turn sets it to
    true: a loop entered with a false flag leaves with a false flag.
    Hence the flag after some of the files is true exactly when all of
    them passed, and once it is false the exit code is 1 whatever the
    remaining files are. *)
Theorem aggregate_flag_monotonic (W : world) :
  outcome (main W)
  = match outcome (for_files W FILES true) with
    | inl e => inl e
    | inr ok => inl (SystemExit (if ok then 0 else 1))
    end
  /\ (forall f rest ok,
         missing W f \/ fails W f ->
         outcome (for_files W (f :: rest) ok)
         = outcome (for_files W rest false))
  /\ (forall f rest ok,
         passes W f ->
         outcome (for_files W (f :: rest) ok)
         = outcome (for_files W rest ok))
  /\ (forall files ok b,
         outcome (for_files W files ok) = inr b -> b = true -> ok = true)
  /\ (forall done b,
         outcome (for_files W done true) = inr b ->
         (b = true <-> Forall (passes W) done))
  /\ (forall done rest,
         FILES = (done ++ rest)%list ->
         outcome (for_files W done true) = inr false ->
         exit_code W = 1%Z).
Proof.
  assert (Hturn : forall f rest ok res,
            fs W (sprite_path W f) <> None ->
            outcome (check W (sprite_path W f)) = inr res ->
            outcome (for_files W (f :: rest) ok)
            = outcome (for_files W rest
                         (if startswith res "FAIL" then false else ok))).
  { intros f rest ok res Hne Ho.
    destruct (check W (sprite_path W f)) as [t r] eqn:Hc.
    unfold outcome in Ho. cbn [snd] in Ho. subst r.
    pose proof (MainFacts.for_files_checked W f rest ok t res Hne Hc) as Hs.
    cbv zeta in Hs. now rewrite Hs. }
  split; [| split; [| split; [| split; [| split]]]].
  - unfold main, print. autorewrite with py_run. cbn [outcome snd].
    destruct (outcome (for_files W FILES true)); reflexivity.
  - intros f rest ok [Hm | (Hne & res & Ho & Hfail)].
    + now rewrite (MainFacts.for_files_missing W f rest ok Hm).
    + now rewrite (Hturn f rest ok res Hne Ho), Hfail.
  - intros f rest ok (Hne & res & Ho & Hok).
    rewrite (Hturn f rest ok res Hne Ho).
    destruct (CheckFacts.check_shape _ _ _ Ho) as (_ & _ & _ & Hsh).
    now rewrite (CheckFacts.shape_fail_or_ok _ Hsh), Hok.
  - apply MainFacts.for_files_never_resets.
  - intros done b Hb.
    pose proof (MainFacts.for_files_outcome W done true) as H.
    rewrite Hb in H. rewrite H. tauto.
  - intros done rest HF Hdone.
    rewrite MainFacts.main_exit_code, HF, MainFacts.for_files_app.
    rewrite ProcFacts.outcome_bind, Hdone.
    destruct (outcome (for_files W rest false)) as [e | b] eqn:E;
      [reflexivity |].
    destruct b; [| reflexivity].
    pose proof (MainFacts.for_files_never_resets W rest false true E eq_refl).
    discriminate.
Qed.

Lemma aggregate_flag_monotonic_witness :
  missing repo_jump_missing "toad_jump_right_v1.png"
  /\ outcome (for_files repo_jump_missing
                ["toad_idle_right_v1.png"; "toad_jump_right_v1.png"] true)
     = inr false
  /\ exit_code repo_jump_missing = 1%Z.
Proof.
  assert (Hm : missing repo_jump_missing "toad_jump_right_v1.png")
    by reflexivity.
  assert (Hidle : passes repo_jump_missing "toad_idle_right_v1.png").
  { split; [change (Some good <> None); discriminate |].
    exists "OK size=1024x256 alpha0=1.56% frame=256x256".
    split; [vm_compute; reflexivity | reflexivity]. }
  destruct (aggregate_flag_monotonic repo_jump_missing)
    as (_ & Hfail & Hpass & _ & _ & Hexit).
  assert (H : outcome (for_files repo_jump_missing
                         ["toad_idle_right_v1.png"; "toad_jump_right_v1.png"]
                         true) = inr false).
  { rewrite (Hpass _ _ true Hidle).
    rewrite (Hfail _ [] true (or_introl Hm)). reflexivity. }
  split; [exact Hm | split; [exact H |]].
  exact (Hexit ["toad_idle_right_v1.png"; "toad_jump_right_v1.png"]
           ["toad_land_right_v1.png"; "toad_cashout_right_v1.png";
            "toad_jackpot_right_v1.png"; "toad_dead_right_v1.png"]
           eq_refl H).
Defined.

(** C7. For every filename [f] of the list whose path does not exist,
    the turn of the loop at [f] prints "MISSING <filename>", sets the flag
    to false and goes on with the remaining filenames in order; the file
    is never opened for decoding, and the exit code is 1. The run reaches
    that turn whenever the loop over the filenames before [f] comes to its
    end, and the report then holds the line at its place. *)
Theorem missing_file_reported (W : world) (done rest : list string) (f : string) :
  FILES = (done ++ f :: rest)%list ->
  missing W f ->
  (forall ok,
      for_files W (f :: rest) ok
      = (([EvExists (sprite_path W f); EvPrint ("MISSING " ++ f)]
          ++ trace (for_files W rest false))%list,
         outcome (for_files W rest false)))
  /\ ~ In (EvOpen (sprite_path W f)) (trace (main W))
  /\ exit_code W = 1%Z
  /\ (forall b,
         outcome (for_files W done true) = inr b ->
         In ("MISSING " ++ f) (report W)
         /\ trace (main W)
            = (header W ++ trace (for_files W done true)
               ++ [EvExists (sprite_path W f); EvPrint ("MISSING " ++ f)]
               ++ trace (for_files W rest false))%list).
Proof.
  intros HF Hm. split; [| split; [| split]].
  - intros ok. now apply MainFacts.for_files_missing.
  - rewrite MainFacts.main_trace. intros Hin.
    apply in_app_or in Hin. destruct Hin as [Hin | Hin].
    + destruct Hin as [H | [H | [H | []]]]; discriminate H.
    + apply MainFacts.for_files_opens_existing in Hin. contradiction.
  - rewrite MainFacts.main_exit_code.
    pose proof (MainFacts.for_files_outcome W FILES true) as H.
    destruct (outcome (for_files W FILES true)) as [e | [|]];
      try reflexivity.
    assert (HP : Forall (passes W) FILES) by now apply H.
    rewrite Forall_forall in HP.
    destruct (MainFacts.passes_not_missing W f Hm).
    apply HP. rewrite HF. apply in_elt.
  - intros b Hb.
    assert (Ht : trace (main W)
                 = (header W ++ trace (for_files W done true)
                    ++ [EvExists (sprite_path W f); EvPrint ("MISSING " ++ f)]
                    ++ trace (for_files W rest false))%list).
    { rewrite MainFacts.main_trace, HF, MainFacts.for_files_app.
      rewrite ProcFacts.trace_bind, Hb.
      now rewrite (MainFacts.for_files_missing W f rest b Hm). }
    split; [| exact Ht].
    unfold report. rewrite Ht. apply ProcFacts.in_stdout.
    apply in_or_app. right. apply in_or_app. right.
    right. left. reflexivity.
Qed.

Lemma missing_file_reported_witness :
  missing repo_jump_missing "toad_jump_right_v1.png"
  /\ exit_code repo_jump_missing = 1%Z
  /\ In "MISSING toad_jump_right_v1.png" (report repo_jump_missing).
Proof.
  assert (Hm : missing repo_jump_missing "toad_jump_right_v1.png")
    by reflexivity.
  pose proof (missing_file_reported repo_jump_missing
                ["toad_idle_right_v1.png"]
                ["toad_land_right_v1.png"; "toad_cashout_right_v1.png";
                 "toad_jackpot_right_v1.png"; "toad_dead_right_v1.png"]
                "toad_jump_right_v1.png" eq_refl Hm)
    as (_ & _ & Hcode & Hrep).
  split; [exact Hm | split; [exact Hcode |]].
  assert (Hdone : outcome (for_files repo_jump_missing
                             ["toad_idle_right_v1.png"] true) = inr true)
    by (vm_compute; reflexivity).
  exact (proj1 (Hrep true Hdone)).
Defined.

(** The loop over the filenames before a missing one comes to its end
    unless one of them exists and does not decode: that error is not
    handled and ends the run where it occurs. *)
Remark turn_reached_without_decode_error (W : world) (done : list string) :
  Forall (fun g => fs W (sprite_path W g) <> Some Undecodable) done ->
  exists b, outcome (for_files W done true) = inr b.
Proof. apply MainFacts.for_files_completes. Qed.

(** After a decode error nothing more is printed, not even the line of a
    missing file further down the list. *)
Remark decode_error_ends_report :
  fs repo_idle_broken_jump_missing
     (sprite_path repo_idle_broken_jump_missing "toad_idle_right_v1.png")
  = Some Undecodable
  /\ missing repo_idle_broken_jump_missing "toad_jump_right_v1.png"
  /\ ~ In "MISSING toad_jump_right_v1.png"
         (report repo_idle_broken_jump_missing)
  /\ exit_code repo_idle_broken_jump_missing = 1%Z.
Proof.
  split; [reflexivity | split; [reflexivity | split]].
  - intros H. vm_compute in H.
    repeat (destruct H as [H | H]; [discriminate H |]). exact H.
  - vm_compute. reflexivity.
Qed.

(** C9. Two runs in which the script lies at the same place (the same
    absolute [__file__], or the same relative one under the same current
    directory) and the six expected paths hold the same thing (the same
    image, the same undecodable file, or nothing) print the same report
    and end with the same exit code, whatever else differs between the
    two runs. *)
Theorem run_deterministic (W1 W2 : world) :
  script_file W1 = script_file W2 ->
  PosixPath.isabs (script_file W1) = true \/ getcwd W1 = getcwd W2 ->
  (forall f, In f FILES ->
             fs W1 (sprite_path W1 f) = fs W2 (sprite_path W2 f)) ->
  report W1 = report W2 /\ exit_code W1 = exit_code W2.
Proof.
  intros Hs Hd Hfs.
  assert (HRR : REPO_ROOT W1 = REPO_ROOT W2).
  { unfold REPO_ROOT. rewrite <- Hs. destruct Hd as [Habs | ->].
    - now apply PathFacts.abspath_of_absolute.
    - reflexivity. }
  assert (HR : ROOT W1 = ROOT W2) by (unfold ROOT; now rewrite HRR).
  assert (Hm : main W1 = main W2).
  { unfold main. rewrite HRR, HR.
    now rewrite (MainFacts.for_files_ext W1 W2 FILES true HR Hfs). }
  unfold report, exit_code. now rewrite Hm.
Qed.

Lemma run_deterministic_witness :
  report repo_good = report repo_good_with_notes
  /\ exit_code repo_good = exit_code repo_good_with_notes.
Proof.
  apply (run_deterministic repo_good repo_good_with_notes);
    [reflexivity | left; reflexivity |].
  intros f Hin. unfold FILES in Hin.
  repeat (destruct Hin as [<- | Hin]; [reflexivity |]).
  destruct Hin.
Defined.

End MainSpec.

(* ================================================================== *)
(** ** Properties of the path resolution                                *)
(* ================================================================== *)

Module PathSpec.
Import PyStr PosixPath Proc ValidateSprites Notions Examples.

(** C6. With the script at the absolute path of components [comps], the
    repository root is the path two levels up (the components without the
    last two), the sprite root is that path followed by
    public/lilypad-leap/sprites/toad/sheets/v1, both depend on nothing but
    the location of the script, and the report starts with the two lines
    that show them. *)
Theorem sprite_root_two_levels_up (W : world) (comps : list string) :
  comps <> [] ->
  forallb plain comps = true ->
  script_file W = abs_path comps ->
  let repo := removelast (removelast comps) in
  REPO_ROOT W = abs_path repo
  /\ ROOT W = abs_path (repo ++ ["public"; "lilypad-leap"; "sprites";
                                 "toad"; "sheets"; "v1"])
  /\ exists lines,
       report W = ("Repo root: " ++ REPO_ROOT W)
                  :: ("Sprite root: " ++ ROOT W) :: lines.
Proof.
  intros Hne Hpl Hfile repo.
  assert (HR : REPO_ROOT W = abs_path repo).
  { destruct (exists_last Hne) as (l & name & E).
    unfold REPO_ROOT, repo. rewrite Hfile, E, removelast_last.
    rewrite E, forallb_app in Hpl. apply andb_true_iff in Hpl.
    destruct Hpl as [Hl Hn]. cbn [forallb] in Hn. rewrite andb_true_r in Hn.
    apply PathFacts.abspath_parent_of_dirname;
      [exact Hl | now apply PathFacts.plain_component]. }
  split; [exact HR | split].
  - unfold ROOT. rewrite HR. apply PathFacts.join_abs_path; [| reflexivity].
    apply PathFacts.forallb_plain_component.
    unfold repo. now do 2 apply PathFacts.forallb_removelast.
  - unfold report. rewrite MainFacts.main_trace, ProcFacts.stdout_app.
    unfold header. cbn [stdout app]. eauto.
Qed.

Lemma sprite_root_two_levels_up_witness :
  script_file repo_good = abs_path ["repo"; "scripts"; "validate_sprites.py"]
  /\ REPO_ROOT repo_good = "/repo"
  /\ ROOT repo_good = "/repo/public/lilypad-leap/sprites/toad/sheets/v1".
Proof.
  pose proof (sprite_root_two_levels_up repo_good
                ["repo"; "scripts"; "validate_sprites.py"]
                ltac:(discriminate) eq_refl eq_refl) as (H1 & H2 & _).
  split; [reflexivity | split; [exact H1 | exact H2]].
Defined.

End PathSpec.

(* ================================================================== *)
(** ** Binary64: the percentages of the script are exact                *)
(* ================================================================== *)

Module FloatExact.
Import Float.
Local Open Scope Z_scope.

Lemma mul_compare_l (c a b : Z) : 0 < c -> (c * a ?= c * b) = (a ?= b).
Proof.
  intros Hc. destruct (Z.compare_spec a b) as [-> | H | H].
  - apply Z.compare_refl.
  - apply Z.compare_lt_iff. nia.
  - apply Z.compare_gt_iff. nia.
Qed.

(** Rounding to the nearest integer sees the quotient only. *)
Lemma round_half_even_scale (c n d : Z) :
  0 < c -> 0 < d -> round_half_even (c * n) (c * d) = round_half_even n d.
Proof.
  intros Hc Hd. unfold round_half_even.
  rewrite Z.div_mul_cancel_l by lia.
  rewrite Z.mul_mod_distr_l by lia.
  replace (2 * (c * (n mod d))) with (c * (2 * (n mod d))) by ring.
  now rewrite mul_compare_l by lia.
Qed.

Lemma round_half_even_ratio (n1 d1 n2 d2 : Z) :
  0 < d1 -> 0 < d2 -> n1 * d2 = n2 * d1 ->
  round_half_even n1 d1 = round_half_even n2 d2.
Proof.
  intros H1 H2 E.
  rewrite <- (round_half_even_scale d2 n1 d1) by lia.
  rewrite <- (round_half_even_scale d1 n2 d2) by lia.
  f_equal; lia.
Qed.

(** Printing in fixed notation sees the value only, not the fraction that
    represents it. *)
Lemma fixed_Qeq (prec : nat) (x y : Q) :
  (x == y)%Q -> PyFormat.fixed prec x = PyFormat.fixed prec y.
Proof.
  intros E. unfold PyFormat.fixed.
  assert (H : round_half_even (Qnum x * 10 ^ Z.of_nat prec) (Z.pos (Qden x))
              = round_half_even (Qnum y * 10 ^ Z.of_nat prec) (Z.pos (Qden y))).
  { apply round_half_even_ratio; try lia.
    unfold Qeq in E. nia. }
  now rewrite H.
Qed.

(** The significand and the exponent binary64 gives to [a * 2^t / 2^j]
    when [a] has at most 53 bits: nothing is rounded away. *)
Lemma round_pos_dyadic_eq (a t j : Z) :
  0 < a < 2 ^ 53 -> 0 <= t -> 0 <= j <= 1000 ->
  round_pos (a * 2 ^ t) (2 ^ j)
  = scale2 (a * 2 ^ (52 - Z.log2 a)) (t + Z.log2 a - j - 52).
Proof.
  intros [Ha Ha53] Ht Hj.
  assert (HLa : 0 <= Z.log2 a < 53).
  { split; [apply Z.log2_nonneg | apply Z.log2_lt_pow2; lia]. }
  assert (Hpt : 0 < 2 ^ t) by (apply Z.pow_pos_nonneg; lia).
  assert (Hn : 0 < a * 2 ^ t) by nia.
  unfold round_pos.
  rewrite FloatFacts.floor_log2_dyadic by lia.
  rewrite Z.log2_mul_pow2 by lia.
  set (La := Z.log2 a) in *.
  rewrite Z.max_l by lia.
  assert (Hm : (if 0 <=? t + La - j - 52
                then round_half_even (a * 2 ^ t) (2 ^ j * 2 ^ (t + La - j - 52))
                else round_half_even (a * 2 ^ t * 2 ^ (- (t + La - j - 52)))
                       (2 ^ j))
               = a * 2 ^ (52 - La)).
  { destruct (0 <=? t + La - j - 52) eqn:E.
    - apply Z.leb_le in E.
      rewrite <- Z.pow_add_r by lia.
      replace (a * 2 ^ t)
        with ((a * 2 ^ (52 - La)) * 2 ^ (j + (t + La - j - 52))).
      + apply FloatFacts.round_half_even_exact.
        apply Z.pow_pos_nonneg; lia.
      + rewrite <- Z.mul_assoc, <- Z.pow_add_r by lia.
        do 2 f_equal. lia.
    - apply Z.leb_gt in E.
      replace (a * 2 ^ t * 2 ^ (- (t + La - j - 52)))
        with ((a * 2 ^ (52 - La)) * 2 ^ j).
      + apply FloatFacts.round_half_even_exact.
        apply Z.pow_pos_nonneg; lia.
      + rewrite <- !Z.mul_assoc, <- !Z.pow_add_r by lia.
        do 2 f_equal. lia. }
  now rewrite Hm.
Qed.

(** The value of [scale2 m e]. *)
Lemma scale2_value (m e n j : Z) :
  0 <= j -> -2000 <= e ->
  (0 <= e -> m * 2 ^ e * 2 ^ j = n) ->
  (e < 0 -> m * 2 ^ j = n * 2 ^ (- e)) ->
  (scale2 m e == Qmake n (Z.to_pos (2 ^ j)))%Q.
Proof.
  intros Hj He Hpos Hneg. unfold scale2.
  assert (Hpj : 0 < 2 ^ j) by (apply Z.pow_pos_nonneg; lia).
  destruct (0 <=? e) eqn:E.
  - apply Z.leb_le in E. unfold Qeq, inject_Z. cbn [Qnum Qden].
    rewrite Z2Pos.id by lia. rewrite (Hpos E). lia.
  - apply Z.leb_gt in E. unfold Qeq. cbn [Qnum Qden].
    assert (Hpe : 0 < 2 ^ (- e)) by (apply Z.pow_pos_nonneg; lia).
    rewrite !Z2Pos.id by lia. now apply Hneg.
Qed.

Lemma round_pos_dyadic_value (a t j : Z) :
  0 < a < 2 ^ 53 -> 0 <= t <= 100 -> 0 <= j <= 1000 ->
  (round_pos (a * 2 ^ t) (2 ^ j) == Qmake (a * 2 ^ t) (Z.to_pos (2 ^ j)))%Q.
Proof.
  intros Ha Ht Hj. rewrite round_pos_dyadic_eq by lia.
  assert (HLa : 0 <= Z.log2 a < 53).
  { split; [apply Z.log2_nonneg | apply Z.log2_lt_pow2; lia]. }
  set (La := Z.log2 a) in *.
  apply scale2_value; try lia.
  - intros He. rewrite <- !Z.mul_assoc, <- !Z.pow_add_r by lia.
    do 2 f_equal. lia.
  - intros He. rewrite <- !Z.mul_assoc, <- !Z.pow_add_r by lia.
    do 2 f_equal. lia.
Qed.

(** [pct * 100] for the share of a sheet: the quotient and the product
    are both exact, so the float that is printed is the exact
    percentage. *)
Lemma sheet_percentage_exact (k : N) :
  (k <= 262144)%N ->
  (mul (truediv k 262144) (inject_Z 100)
   == Qmake (100 * Z.of_N k) 262144)%Q.
Proof.
  intros Hk. unfold truediv, round.
  change (Qnum (Z.of_N k # Z.to_pos (Z.of_N 262144))) with (Z.of_N k).
  change (Z.pos (Qden (Z.of_N k # Z.to_pos (Z.of_N 262144)))) with (2 ^ 18).
  destruct (Z.of_N k) as [| p | p] eqn:Ek; [reflexivity | | lia].
  assert (Hp : 0 < Z.pos p <= 262144) by lia.
  assert (HL : 0 <= Z.log2 (Z.pos p) <= 18).
  { split; [apply Z.log2_nonneg |].
    change 18 with (Z.log2 262144). apply Z.log2_le_mono. lia. }
  replace (Z.pos p) with (Z.pos p * 2 ^ 0) at 1 by (cbn; lia).
  rewrite round_pos_dyadic_eq
    by (try lia; change (2 ^ 53) with 9007199254740992; lia).
  set (L := Z.log2 (Z.pos p)) in *.
  unfold scale2.
  assert (E : (0 <=? 0 + L - 18 - 52) = false) by (apply Z.leb_gt; lia).
  rewrite E. unfold mul, round, Qmult, inject_Z. cbn [Qnum Qden].
  assert (Hpow : 0 < 2 ^ (52 - L)) by (apply Z.pow_pos_nonneg; lia).
  assert (Hpow' : 0 < 2 ^ (- (0 + L - 18 - 52)))
    by (apply Z.pow_pos_nonneg; lia).
  destruct (Z.pos p * 2 ^ (52 - L) * 100) as [| q | q] eqn:Eq; [nia | | nia].
  rewrite <- Eq. rewrite Pos.mul_1_r, Z2Pos.id by lia.
  replace (Z.pos p * 2 ^ (52 - L) * 100)
    with ((100 * Z.pos p) * 2 ^ (52 - L)) by ring.
  rewrite round_pos_dyadic_value
    by (try lia; change (2 ^ 53) with 9007199254740992; lia).
  unfold Qeq. cbn [Qnum Qden].
  rewrite Z2Pos.id by (apply Z.pow_pos_nonneg; lia).
  replace (- (0 + L - 18 - 52)) with ((52 - L) + 18) by lia.
  rewrite Z.pow_add_r by lia.
  change (2 ^ 18) with 262144. change (Z.pos 262144) with 262144. ring.
Qed.

(** What [{pct:.N%}] prints for the share of a sheet: the exact
    percentage, rounded to [prec] decimals, ties to even. *)
Lemma sheet_percent_text (prec : nat) (k : N) :
  (k <= 262144)%N ->
  PyFormat.percent prec (truediv k 262144)
  = (PyFormat.fixed prec (Qmake (100 * Z.of_N k) 262144) ++ "%")%string.
Proof.
  intros Hk. unfold PyFormat.percent.
  now rewrite (fixed_Qeq prec _ _ (sheet_percentage_exact k Hk)).
Qed.

End FloatExact.

(* ================================================================== *)
(** ** More on [check]                                                  *)
(* ================================================================== *)

Module CheckMore.
Import PyStr PIL Proc ValidateSprites Notions Examples.

(** The float comparison of [check], as a comparison of pixel counts. *)
Lemma below_threshold_count (k : N) :
  (k <= 262144)%N ->
  Float.ltb (Float.truediv k 262144) (Float.literal (1 # 100))
  = (k <? 2622)%N.
Proof.
  intros Hk. pose proof (FloatFacts.sheet_below_threshold k Hk) as H.
  unfold Qlt in H. cbn [Qnum Qden] in H.
  destruct (Float.ltb _ _); destruct (k <? 2622)%N eqn:E; try reflexivity.
  - apply N.ltb_ge in E. assert (Z.of_N k * 100 < 1 * 262144)%Z
      by now apply H. lia.
  - apply N.ltb_lt in E.
    assert (false = true) by (apply H; lia). discriminate.
Qed.

Lemma sheet_count_bound (img : image rgba) :
  size img = (SHEET_W, SHEET_H) -> well_formed img ->
  (transparent_pixels img <= 262144)%N.
Proof.
  intros Hsz Hwf. pose proof (CheckFacts.transparent_pixels_le img) as Hle.
  unfold well_formed in Hwf. rewrite Hwf, Hsz in Hle. exact Hle.
Qed.

(** X1. The result of [check] depends on the image only through its
    size and the number of its fully transparent pixels: colours and the
    places of the transparent pixels do not matter. *)
Theorem check_sees_size_and_count (W1 W2 : world) (p1 p2 : string)
        (img1 img2 : image rgba) :
  fs W1 p1 = Some (Decodable img1) ->
  fs W2 p2 = Some (Decodable img2) ->
  size img1 = size img2 ->
  transparent_pixels img1 = transparent_pixels img2 ->
  outcome (check W1 p1) = outcome (check W2 p2).
Proof.
  intros H1 H2 Hsz Hk.
  destruct (size_eqb (size img1) (SHEET_W, SHEET_H)) eqn:Hs.
  - apply CheckFacts.size_eqb_eq in Hs.
    pose proof (CheckFacts.check_of_sheet W1 p1 img1 H1 Hs) as Hc1.
    rewrite Hsz in Hs.
    pose proof (CheckFacts.check_of_sheet W2 p2 img2 H2 Hs) as Hc2.
    cbv zeta in Hc1, Hc2. rewrite Hc1, Hc2, Hk. reflexivity.
  - apply CheckFacts.size_eqb_neq in Hs.
    rewrite (CheckFacts.check_of_wrong_size W1 p1 img1 H1 Hs).
    rewrite Hsz in Hs.
    rewrite (CheckFacts.check_of_wrong_size W2 p2 img2 H2 Hs).
    now rewrite Hsz.
Qed.

Lemma check_sees_size_and_count_witness :
  transparent_pixels (sheet 1024 256 4096)
  = transparent_pixels (sheet_recoloured 1024 256 4096)
  /\ outcome (check repo_good idle) = outcome (check repo_recoloured idle).
Proof.
  assert (Hk : transparent_pixels (sheet 1024 256 4096)
               = transparent_pixels (sheet_recoloured 1024 256 4096))
    by (vm_compute; reflexivity).
  assert (Hsz : size (sheet 1024 256 4096)
                = size (sheet_recoloured 1024 256 4096))
    by (unfold sheet, sheet_recoloured; cbn [size]; reflexivity).
  split; [exact Hk |].
  exact (check_sees_size_and_count repo_good repo_recoloured idle idle
           (sheet 1024 256 4096) (sheet_recoloured 1024 256 4096)
           eq_refl eq_refl Hsz Hk).
Defined.

(** X2. A decoded sheet of 1024x256 pixels passes exactly when at least
    2622 of its 262144 pixels are fully transparent; with 2621 or fewer
    the result is a FAIL. *)
Theorem sheet_passes_from_2622 (W : world) (path : string) (img : image rgba) :
  fs W path = Some (Decodable img) ->
  size img = (SHEET_W, SHEET_H) ->
  well_formed img ->
  exists res,
    check W path = ([EvOpen path], inr res)
    /\ startswith res "OK" = (2622 <=? transparent_pixels img)%N
    /\ startswith res "FAIL" = (transparent_pixels img <? 2622)%N.
Proof.
  intros Hfile Hsz Hwf.
  pose proof (CheckFacts.check_of_sheet W path img Hfile Hsz) as Hc.
  cbv zeta in Hc. rewrite Hc.
  rewrite (below_threshold_count _ (sheet_count_bound img Hsz Hwf)).
  eexists. split; [reflexivity |].
  rewrite N.leb_antisym.
  destruct (transparent_pixels img <? 2622)%N; split; reflexivity.
Qed.

Lemma sheet_passes_from_2622_witness :
  well_formed (sheet 1024 256 2622)
  /\ exists res,
       check repo_threshold idle = ([EvOpen idle], inr res)
       /\ startswith res "OK" = true.
Proof.
  assert (Hwf : well_formed (sheet 1024 256 2622))
    by (vm_compute; reflexivity).
  split; [exact Hwf |].
  destruct (sheet_passes_from_2622 repo_threshold idle (sheet 1024 256 2622)
              eq_refl eq_refl Hwf) as (res & Hc & Hok & _).
  exists res. split; [exact Hc |].
  rewrite Hok. vm_compute. reflexivity.
Defined.

(** X3. The text of the result for a decoded sheet of 1024x256 pixels,
    without floats: the percentage in it is the exact share of fully
    transparent pixels, rounded (ties to even) to four decimals in the
    FAIL line and to two in the OK line. The two float operations of
    [check] lose nothing. *)
Theorem sheet_result_exact (W : world) (path : string) (img : image rgba) :
  fs W path = Some (Decodable img) ->
  size img = (SHEET_W, SHEET_H) ->
  well_formed img ->
  outcome (check W path)
  = inr (if (transparent_pixels img <? 2622)%N
         then "FAIL no real transparency (alpha0="
              ++ exact_percent 4 img ++ ")"
         else "OK size=1024x256 alpha0=" ++ exact_percent 2 img
              ++ " frame=256x256").
Proof.
  intros Hfile Hsz Hwf.
  pose proof (sheet_count_bound img Hsz Hwf) as Hk.
  pose proof (CheckFacts.check_of_sheet W path img Hfile Hsz) as Hc.
  cbv zeta in Hc. rewrite Hc. unfold outcome. cbn [snd].
  rewrite (below_threshold_count _ Hk).
  rewrite !(FloatExact.sheet_percent_text _ _ Hk).
  reflexivity.
Qed.

Lemma sheet_result_exact_witness :
  well_formed (sheet 1024 256 2621)
  /\ exact_percent 4 (sheet 1024 256 2621) = "0.9998%"
  /\ outcome (check repo_below_threshold idle)
     = inr "FAIL no real transparency (alpha0=0.9998%)".
Proof.
  assert (Hwf : well_formed (sheet 1024 256 2621))
    by (vm_compute; reflexivity).
  assert (Hp : exact_percent 4 (sheet 1024 256 2621) = "0.9998%")
    by (vm_compute; reflexivity).
  assert (Hk : (transparent_pixels (sheet 1024 256 2621) <? 2622)%N = true)
    by (vm_compute; reflexivity).
  split; [exact Hwf | split; [exact Hp |]].
  rewrite (sheet_result_exact repo_below_threshold idle
             (sheet 1024 256 2621) eq_refl eq_refl Hwf).
  rewrite Hk, Hp. reflexivity.
Defined.

(** X4. [check] opens its path once and does nothing else that can be
    seen; it returns a result for every file that decodes and raises the
    decoder's error for every other; its division never raises. *)
Theorem check_effects_and_errors (W : world) (path : string) :
  trace (check W path) = [EvOpen path]
  /\ outcome (check W path) <> inl ZeroDivisionError
  /\ ((exists img, fs W path = Some (Decodable img)) ->
      exists res, outcome (check W path) = inr res)
  /\ ((forall img, fs W path <> Some (Decodable img)) ->
      outcome (check W path) = inl (DecodeError path)).
Proof.
  assert (Hund : (forall img, fs W path <> Some (Decodable img)) ->
                 check W path = ([EvOpen path], inl (DecodeError path)))
    by apply CheckFacts.check_of_undecodable.
  assert (Hdec : forall img, fs W path = Some (Decodable img) ->
                 exists res, check W path = ([EvOpen path], inr res)).
  { intros img Hfile.
    destruct (size_eqb (size img) (SHEET_W, SHEET_H)) eqn:Hs.
    - apply CheckFacts.size_eqb_eq in Hs.
      pose proof (CheckFacts.check_of_sheet W path img Hfile Hs) as Hc.
      cbv zeta in Hc. eauto.
    - apply CheckFacts.size_eqb_neq in Hs.
      pose proof (CheckFacts.check_of_wrong_size W path img Hfile Hs). eauto. }
  assert (Hcases : (exists img, fs W path = Some (Decodable img))
                   \/ (forall img, fs W path <> Some (Decodable img))).
  { destruct (fs W path) as [[img | ] | ]; [left; eauto | right | right];
      intros img; discriminate. }
  split; [| split; [| split]].
  - destruct Hcases as [[img Hf] | Hn].
    + destruct (Hdec img Hf) as [res ->]. reflexivity.
    + now rewrite (Hund Hn).
  - destruct Hcases as [[img Hf] | Hn].
    + destruct (Hdec img Hf) as [res ->]. discriminate.
    + rewrite (Hund Hn). discriminate.
  - intros [img Hf]. destruct (Hdec img Hf) as [res ->].
    exists res. reflexivity.
  - intros Hn. now rewrite (Hund Hn).
Qed.

Lemma check_effects_and_errors_witness :
  check repo_land_broken (sprite_dir ++ "/toad_land_right_v1.png")
  = ([EvOpen (sprite_dir ++ "/toad_land_right_v1.png")],
     inl (DecodeError (sprite_dir ++ "/toad_land_right_v1.png"))).
Proof.
  pose proof (check_effects_and_errors repo_land_broken
                (sprite_dir ++ "/toad_land_right_v1.png"))
    as (Ht & _ & _ & Herr).
  apply ProcFacts.run_eq; [exact Ht |].
  apply Herr. intros img H. vm_compute in H. discriminate H.
Defined.

End CheckMore.

(* ================================================================== *)
(** ** More on [main]                                                   *)
(* ================================================================== *)

Module MainMore.
Import PyStr PIL Proc ValidateSprites Notions Examples.

Lemma stdout_header (W : world) : stdout (header W) = header_lines W.
Proof. reflexivity. Qed.

Lemma report_split (W : world) :
  report W = (header_lines W ++ stdout (trace (for_files W FILES true)))%list.
Proof.
  unfold report. now rewrite MainFacts.main_trace, ProcFacts.stdout_app.
Qed.

(** The lines of a loop that no decode error cuts short. *)
Lemma stdout_for_files (W : world) (files : list string) (ok : bool) :
  Forall (fun f => ~ undecodable W f) files ->
  stdout (trace (for_files W files ok)) = map (verdict_line W) files.
Proof.
  revert ok. induction files as [| f rest IH]; intros ok HF.
  - reflexivity.
  - inversion HF as [| ? ? Hf' HF']; subst.
    destruct (MainFacts.turn_cases W f) as [Hm | img res Hf Hc Hsh | Hf Hc].
    + rewrite (MainFacts.for_files_missing W f rest ok Hm).
      cbn [trace fst app stdout map]. rewrite (IH false HF').
      unfold verdict_line. unfold missing in Hm. now rewrite Hm.
    + assert (Hne : fs W (sprite_path W f) <> None) by congruence.
      pose proof (MainFacts.for_files_checked W f rest ok _ _ Hne Hc) as Hs.
      cbv zeta in Hs. rewrite Hs.
      cbn [trace fst app stdout map]. rewrite (IH _ HF').
      unfold verdict_line. now rewrite Hf, Hc.
    + contradiction.
Qed.

(** The report of a run that no decode error cuts short. *)
Lemma report_without_decode_error (W : world) :
  Forall (fun f => ~ undecodable W f) FILES ->
  report W = (header_lines W ++ map (verdict_line W) FILES)%list.
Proof.
  intros HF. rewrite report_split. now rewrite stdout_for_files.
Qed.

(** X5. When none of the six files is undecodable the report has nine
    lines: the three of the header, then one per expected file in the
    order of the list, a MISSING line or the filename with the result of
    [check]. *)
Theorem report_one_line_per_file (W : world) :
  Forall (fun f => ~ undecodable W f) FILES ->
  report W = (header_lines W ++ map (verdict_line W) FILES)%list
  /\ List.length (report W) = 9%nat.
Proof.
  intros HF. pose proof (report_without_decode_error W HF) as H.
  split; [exact H |]. rewrite H. reflexivity.
Qed.

Lemma not_undecodable_repo_jump_missing :
  Forall (fun f => ~ undecodable repo_jump_missing f) FILES.
Proof.
  unfold FILES, undecodable.
  apply Forall_cons;
    [change (Some good <> Some Undecodable); discriminate |].
  apply Forall_cons;
    [change (@None file <> Some Undecodable); discriminate |].
  repeat (apply Forall_cons;
          [change (Some good <> Some Undecodable); discriminate |]).
  apply Forall_nil.
Qed.

Lemma report_one_line_per_file_witness :
  Forall (fun f => ~ undecodable repo_jump_missing f) FILES
  /\ report repo_jump_missing
     = ["Repo root: /repo";
        "Sprite root: /repo/public/lilypad-leap/sprites/toad/sheets/v1";
        "----------------------------------------------------------------------";
        "toad_idle_right_v1.png: OK size=1024x256 alpha0=1.56% frame=256x256";
        "MISSING toad_jump_right_v1.png";
        "toad_land_right_v1.png: OK size=1024x256 alpha0=1.56% frame=256x256";
        "toad_cashout_right_v1.png: OK size=1024x256 alpha0=1.56% frame=256x256";
        "toad_jackpot_right_v1.png: OK size=1024x256 alpha0=1.56% frame=256x256";
        "toad_dead_right_v1.png: OK size=1024x256 alpha0=1.56% frame=256x256"].
Proof.
  split; [exact not_undecodable_repo_jump_missing |].
  rewrite (proj1 (report_one_line_per_file repo_jump_missing
                    not_undecodable_repo_jump_missing)).
  vm_compute. reflexivity.
Defined.

(** X6. A file that exists and does not decode ends the run: the report
    stops after the lines of the files before it, nothing is printed
    about the file itself or the files after it, the decoder's error
    leaves [main], and the exit code is 1. *)
Theorem decode_error_cuts_report (W : world) (done rest : list string)
        (f : string) :
  FILES = (done ++ f :: rest)%list ->
  Forall (fun g => ~ undecodable W g) done ->
  undecodable W f ->
  report W = (header_lines W ++ map (verdict_line W) done)%list
  /\ outcome (main W) = inl (DecodeError (sprite_path W f))
  /\ exit_code W = 1%Z.
Proof.
  intros HFILES Hdone Hf.
  assert (Hdone' : Forall (fun g => fs W (sprite_path W g) <> Some Undecodable)
                     done) by exact Hdone.
  destruct (MainFacts.for_files_completes W done true Hdone') as [b Hb].
  assert (Hne : fs W (sprite_path W f) <> None)
    by (unfold undecodable in Hf; congruence).
  assert (Hc : check W (sprite_path W f)
               = ([EvOpen (sprite_path W f)],
                  inl (DecodeError (sprite_path W f)))).
  { apply CheckFacts.check_of_undecodable. intros img.
    unfold undecodable in Hf. congruence. }
  pose proof (MainFacts.for_files_raises W f rest b _ _ Hne Hc) as Hstep.
  assert (Hloop : outcome (for_files W FILES true)
                  = inl (DecodeError (sprite_path W f))).
  { rewrite HFILES, MainFacts.for_files_app, ProcFacts.outcome_bind, Hb.
    now rewrite Hstep. }
  split; [| split].
  - rewrite report_split, HFILES, MainFacts.for_files_app.
    rewrite ProcFacts.trace_bind, Hb, Hstep, ProcFacts.stdout_app.
    rewrite (stdout_for_files W done true Hdone).
    cbn [trace fst app stdout]. now rewrite app_nil_r.
  - unfold main, print. autorewrite with py_run. cbn [outcome snd].
    now rewrite Hloop.
  - now rewrite MainFacts.main_exit_code, Hloop.
Qed.

Lemma decode_error_cuts_report_witness :
  undecodable repo_land_broken "toad_land_right_v1.png"
  /\ report repo_land_broken
     = ["Repo root: /repo";
        "Sprite root: /repo/public/lilypad-leap/sprites/toad/sheets/v1";
        "----------------------------------------------------------------------";
        "toad_idle_right_v1.png: OK size=1024x256 alpha0=1.56% frame=256x256";
        "MISSING toad_jump_right_v1.png"]
  /\ exit_code repo_land_broken = 1%Z.
Proof.
  assert (Hf : undecodable repo_land_broken "toad_land_right_v1.png")
    by reflexivity.
  assert (Hdone : Forall (fun g => ~ undecodable repo_land_broken g)
                    ["toad_idle_right_v1.png"; "toad_jump_right_v1.png"]).
  { unfold undecodable.
    apply Forall_cons;
      [change (Some good <> Some Undecodable); discriminate |].
    apply Forall_cons;
      [change (@None file <> Some Undecodable); discriminate |].
    apply Forall_nil. }
  destruct (decode_error_cuts_report repo_land_broken
              ["toad_idle_right_v1.png"; "toad_jump_right_v1.png"]
              ["toad_cashout_right_v1.png"; "toad_jackpot_right_v1.png";
               "toad_dead_right_v1.png"]
              "toad_land_right_v1.png" eq_refl Hdone Hf) as (Hr & _ & Hx).
  split; [exact Hf | split; [| exact Hx]].
  rewrite Hr. vm_compute. reflexivity.
Defined.

(** What the loop asks the file system. *)
Lemma for_files_touches (W : world) (files : list string) (ok : bool)
      (q : string) :
  In (EvExists q) (trace (for_files W files ok))
  \/ In (EvOpen q) (trace (for_files W files ok)) ->
  exists f, In f files /\ q = sprite_path W f.
Proof.
  revert ok. induction files as [| f rest IH]; intros ok.
  - cbn. tauto.
  - assert (Hrest : forall b,
               In (EvExists q) (trace (for_files W rest b))
               \/ In (EvOpen q) (trace (for_files W rest b)) ->
               exists g, In g (f :: rest) /\ q = sprite_path W g).
    { intros b H. destruct (IH b H) as (g & Hg & ->).
      exists g. split; [now right | reflexivity]. }
    assert (Hhere : forall p, p = sprite_path W f -> q = p ->
                    exists g, In g (f :: rest) /\ q = sprite_path W g).
    { intros p -> ->. exists f. split; [now left | reflexivity]. }
    destruct (MainFacts.turn_cases W f) as [Hm | img res Hf Hc Hsh | Hf Hc].
    + rewrite (MainFacts.for_files_missing W f rest ok Hm). cbn [trace fst].
      intros [[H | [H | H]] | [H | [H | H]]]; try discriminate H.
      * injection H as H. now apply (Hhere (sprite_path W f)).
      * apply (Hrest false). now left.
      * apply (Hrest false). now right.
    + assert (Hne : fs W (sprite_path W f) <> None) by congruence.
      pose proof (MainFacts.for_files_checked W f rest ok _ _ Hne Hc) as Hs.
      cbv zeta in Hs. rewrite Hs. cbn [trace fst].
      intros [[H | [H | [H | H]]] | [H | [H | [H | H]]]];
        try discriminate H.
      * injection H as H. now apply (Hhere (sprite_path W f)).
      * eapply Hrest. left. exact H.
      * injection H as H. now apply (Hhere (sprite_path W f)).
      * eapply Hrest. right. exact H.
    + assert (Hne : fs W (sprite_path W f) <> None) by congruence.
      rewrite (MainFacts.for_files_raises W f rest ok _ _ Hne Hc).
      cbn [trace fst].
      intros [[H | [H | []]] | [H | [H | []]]]; try discriminate H.
      * injection H as H. now apply (Hhere (sprite_path W f)).
      * injection H as H. now apply (Hhere (sprite_path W f)).
Qed.

(** X7. [main] asks the file system about the paths of the six expected
    files only, and opens none of them that does not exist. *)
Theorem main_touches_expected_files_only (W : world) (q : string) :
  (In (EvExists q) (trace (main W)) ->
   exists f, In f FILES /\ q = sprite_path W f)
  /\ (In (EvOpen q) (trace (main W)) ->
      (exists f, In f FILES /\ q = sprite_path W f) /\ fs W q <> None).
Proof.
  rewrite MainFacts.main_trace.
  assert (Hhead : forall e, In e (header W) -> exists l, e = EvPrint l).
  { intros e [H | [H | [H | []]]]; subst e; eauto. }
  split; intros Hin; apply in_app_or in Hin; destruct Hin as [Hin | Hin].
  - destruct (Hhead _ Hin) as [l Hl]. discriminate Hl.
  - apply (for_files_touches W FILES true q). now left.
  - destruct (Hhead _ Hin) as [l Hl]. discriminate Hl.
  - split.
    + apply (for_files_touches W FILES true q). now right.
    + now apply MainFacts.for_files_opens_existing in Hin.
Qed.

Lemma main_touches_expected_files_only_witness :
  In (EvOpen idle) (trace (main repo_good))
  /\ (exists f, In f FILES /\ idle = sprite_path repo_good f)
  /\ fs repo_good idle <> None.
Proof.
  assert (Hin : In (EvOpen idle) (trace (main repo_good))).
  { vm_compute. right. right. right. right. left. reflexivity. }
  split; [exact Hin |].
  exact (proj2 (main_touches_expected_files_only repo_good idle) Hin).
Defined.

(** The exit code, by the files that pass. *)
Lemma exit_zero_iff_passes (W : world) :
  exit_code W = 0%Z <-> Forall (passes W) FILES.
Proof.
  rewrite MainFacts.main_exit_code.
  pose proof (MainFacts.for_files_outcome W FILES true) as H.
  destruct (outcome (for_files W FILES true)) as [e | b].
  - destruct H as [H _]. split; [discriminate | contradiction].
  - destruct b.
    + split; [intros _; now apply H | reflexivity].
    + split; [discriminate |].
      intros HF. assert (false = true) by (apply H; auto). discriminate.
Qed.

(** X8. End to end: when each of the six files decodes to a sheet of
    1024x256 pixels with at least 2622 fully transparent ones, the exit
    code is 0 and the report is the header followed by six OK lines, each
    with the exact percentage of its sheet to two decimals. *)
Theorem six_good_sheets_pass (W : world) :
  (forall f, In f FILES ->
     exists img, fs W (sprite_path W f) = Some (Decodable img)
                 /\ size img = (SHEET_W, SHEET_H)
                 /\ well_formed img
                 /\ (2622 <= transparent_pixels img)%N) ->
  exit_code W = 0%Z
  /\ report W = (header_lines W ++ map (verdict_line W) FILES)%list
  /\ (forall f, In f FILES ->
        exists img, fs W (sprite_path W f) = Some (Decodable img)
                    /\ verdict_line W f
                       = f ++ ": OK size=1024x256 alpha0="
                         ++ exact_percent 2 img ++ " frame=256x256").
Proof.
  intros Hgood.
  assert (Hline : forall f, In f FILES ->
            exists img, fs W (sprite_path W f) = Some (Decodable img)
                        /\ outcome (check W (sprite_path W f))
                           = inr ("OK size=1024x256 alpha0="
                                  ++ exact_percent 2 img ++ " frame=256x256")).
  { intros f Hin. destruct (Hgood f Hin) as (img & Hf & Hsz & Hwf & Hk).
    exists img. split; [exact Hf |].
    pose proof (CheckMore.sheet_count_bound img Hsz Hwf) as Hb.
    pose proof (CheckFacts.check_of_sheet W _ img Hf Hsz) as Hc.
    cbv zeta in Hc. rewrite Hc. unfold outcome. cbn [snd].
    rewrite (CheckMore.below_threshold_count _ Hb).
    rewrite !(FloatExact.sheet_percent_text _ _ Hb).
    apply N.ltb_ge in Hk. rewrite Hk. reflexivity. }
  split; [| split].
  - apply exit_zero_iff_passes. apply Forall_forall. intros f Hin.
    destruct (Hline f Hin) as (img & Hf & Hc).
    split; [congruence |]. eexists. split; [exact Hc | reflexivity].
  - apply report_without_decode_error. apply Forall_forall. intros f Hin.
    destruct (Hline f Hin) as (img & Hf & _).
    unfold undecodable. congruence.
  - intros f Hin. destruct (Hline f Hin) as (img & Hf & Hc).
    exists img. split; [exact Hf |].
    unfold verdict_line. now rewrite Hf, Hc.
Qed.

Lemma six_good_sheets_pass_witness :
  exit_code repo_good = 0%Z
  /\ report repo_good
     = (header_lines repo_good ++ map (verdict_line repo_good) FILES)%list.
Proof.
  assert (Hwf : well_formed (sheet 1024 256 4096))
    by (vm_compute; reflexivity).
  assert (Hk : (2622 <= transparent_pixels (sheet 1024 256 4096))%N)
    by (vm_compute; intros H; discriminate H).
  assert (Hgood : forall f, In f FILES ->
            exists img, fs repo_good (sprite_path repo_good f)
                        = Some (Decodable img)
                        /\ size img = (SHEET_W, SHEET_H)
                        /\ well_formed img
                        /\ (2622 <= transparent_pixels img)%N).
  { intros f Hin. unfold FILES in Hin.
    repeat (destruct Hin as [<- | Hin];
            [exists (sheet 1024 256 4096);
             split; [reflexivity | split; [reflexivity | split; assumption]]
            |]).
    destruct Hin. }
  destruct (six_good_sheets_pass repo_good Hgood) as (H0 & Hr & _).
  split; [exact H0 | exact Hr].
Defined.

End MainMore.

(* ================================================================== *)
(** ** The report, the exit code and the paths                          *)
(* ================================================================== *)

Module ReportMore.
Import PyStr PosixPath PIL Proc ValidateSprites Notions Examples.

Lemma prefix_app_cancel (a b c : string) :
  String.prefix (a ++ b) (a ++ c) = String.prefix b c.
Proof.
  induction a as [| x a IH]; [reflexivity |].
  cbn [append String.prefix].
  destruct (ascii_dec x x); [exact IH | congruence].
Qed.

Lemma missing_line_not_ok (f : string) :
  In f FILES -> startswith ("MISSING " ++ f) (f ++ ": OK") = false.
Proof.
  unfold FILES. intros Hin.
  repeat (destruct Hin as [<- | Hin]; [reflexivity |]). destruct Hin.
Qed.

Lemma Forall2_cons_inv {A B} (R : A -> B -> Prop) x y l l' :
  Forall2 R (x :: l) (y :: l') -> R x y /\ Forall2 R l l'.
Proof. intros H. inversion H. auto. Qed.

(** The lines a loop prints and the flag it leaves: the flag is true
    exactly when it was true before and the loop printed one line per
    file, each an OK line of its file. *)
Lemma loop_flag_by_lines (W : world) (files : list string) (ok : bool) :
  incl files FILES ->
  outcome (for_files W files ok) = inr true
  <-> ok = true
      /\ Forall2 (fun f line => startswith line (f ++ ": OK") = true)
           files (stdout (trace (for_files W files ok))).
Proof.
  revert ok. induction files as [| f rest IH]; intros ok Hincl.
  - cbn. split.
    + intros H. injection H as ->. split; [reflexivity | constructor].
    + intros [-> _]. reflexivity.
  - assert (Hin : In f FILES) by (apply Hincl; now left).
    assert (Hrest : incl rest FILES)
      by (intros g Hg; apply Hincl; now right).
    destruct (MainFacts.turn_cases W f) as [Hm | img res Hf Hc Hsh | Hf Hc].
    + rewrite (MainFacts.for_files_missing W f rest ok Hm).
      cbn [outcome snd trace fst app stdout]. split.
      * intros H. apply (IH false Hrest) in H. destruct H. discriminate.
      * intros [_ H]. apply Forall2_cons_inv in H. destruct H as [Hline _].
        rewrite (missing_line_not_ok f Hin) in Hline. discriminate.
    + assert (Hne : fs W (sprite_path W f) <> None) by congruence.
      pose proof (MainFacts.for_files_checked W f rest ok _ _ Hne Hc) as Hs.
      cbv zeta in Hs. rewrite Hs.
      cbn [outcome snd trace fst app stdout].
      assert (Hline : startswith (f ++ ": " ++ res) (f ++ ": OK")
                      = negb (startswith res "FAIL")).
      { unfold startswith.
        change (f ++ ": OK") with (f ++ ": " ++ "OK").
        rewrite <- !PathFacts.append_assoc, prefix_app_cancel.
        pose proof (CheckFacts.shape_fail_or_ok _ Hsh) as H.
        unfold startswith in H. rewrite H. now rewrite negb_involutive. }
      destruct (startswith res "FAIL") eqn:Efail; cbn [negb] in Hline.
      * split.
        -- intros H. apply (IH false Hrest) in H. destruct H. discriminate.
        -- intros [_ H]. apply Forall2_cons_inv in H. destruct H as [Hl _].
           rewrite Hline in Hl. discriminate.
      * rewrite (IH ok Hrest). split.
        -- intros [Hok H]. split; [exact Hok |]. now constructor.
        -- intros [Hok H]. split; [exact Hok |].
           now apply Forall2_cons_inv in H.
    + assert (Hne : fs W (sprite_path W f) <> None) by congruence.
      rewrite (MainFacts.for_files_raises W f rest ok _ _ Hne Hc).
      cbn [outcome snd trace fst app stdout]. split.
      * discriminate.
      * intros [_ H]. inversion H.
Qed.

(** X9. The exit code can be read off the report: it is 0 exactly when
    the report has, after its three header lines, one line per expected
    file, in the order of the list, each starting with the filename
    followed by ": OK". *)
Theorem exit_code_read_off_report (W : world) :
  exit_code W = 0%Z
  <-> Forall2 (fun f line => startswith line (f ++ ": OK") = true)
        FILES (skipn 3 (report W)).
Proof.
  rewrite MainMore.report_split. unfold header_lines. cbn [app skipn].
  pose proof (loop_flag_by_lines W FILES true (incl_refl FILES)) as H.
  rewrite MainFacts.main_exit_code. split.
  - intros H0. apply H.
    destruct (outcome (for_files W FILES true)) as [e | [|]];
      try discriminate H0; reflexivity.
  - intros HF.
    assert (Ho : outcome (for_files W FILES true) = inr true)
      by (apply H; split; [reflexivity | exact HF]).
    now rewrite Ho.
Qed.

Lemma exit_code_read_off_report_witness :
  exit_code repo_good = 0%Z /\ exit_code repo_jump_missing <> 0%Z.
Proof.
  split.
  - apply (exit_code_read_off_report repo_good).
    vm_compute. repeat constructor.
  - intros H. apply (exit_code_read_off_report repo_jump_missing) in H.
    vm_compute in H.
    apply Forall2_cons_inv in H. destruct H as [_ H].
    apply Forall2_cons_inv in H. destruct H as [Hline _].
    discriminate Hline.
Defined.













End ReportMore.
